(** * Table upcast converters (ckeditor5-table, [converters/upcasttable.ts])

    A shallow embedding of the view-to-model table converters and of the
    part of the conversion API they call, with proofs of the properties the
    specification states about them. *)

From Stdlib Require Import ZArith String Ascii List Bool Lia Sorted.
From stdpp Require Import gmap strings list.
Import ListNotations.

#[local] Set Warnings "-register-all".

Local Open Scope string_scope.
Local Open Scope list_scope.

(** ** The view tree (source nodes) *)

(** A view node is a text node or an element with a name, attributes and an
    ordered sequence of children. *)
Inductive ViewNode : Type :=
| ViewText (data : string)
| ViewElement (name : string) (attributes : list (string * string))
              (children : list ViewNode).

(** JavaScript compares nodes by reference ([===]).  A node of a tree is
    identified by its position: the list of child indices leading to it from
    the root.  A [ViewItem] is a node together with that position. *)
Record ViewItem : Type := mkItem { path : list nat; node : ViewNode }.

Module View.

Definition name (v : ViewItem) : option string :=
  match node v with
  | ViewText _ => None
  | ViewElement n _ _ => Some n
  end.

(** [v.name === n]; the name of a text node is [undefined]. *)
Definition nameIs (n : string) (v : ViewItem) : bool :=
  match name v with
  | Some m => String.eqb m n
  | None => false
  end.

(** [v.is( 'element', n )] *)
Definition isElement (n : string) (v : ViewItem) : bool := nameIs n v.

Definition childNodes (v : ViewItem) : list ViewNode :=
  match node v with
  | ViewText _ => []
  | ViewElement _ _ cs => cs
  end.

(** [v.getChildren()]: the i-th child sits at position [path v ++ [i]]. *)
Definition getChildren (v : ViewItem) : list ViewItem :=
  imap (fun i c => mkItem (path v ++ [i]) c) (childNodes v).

Fixpoint assoc (key : string) (l : list (string * string)) : option string :=
  match l with
  | [] => None
  | (k, x) :: rest => if String.eqb k key then Some x else assoc key rest
  end.

(** [v.getAttribute( key )], [None] standing for [undefined]. *)
Definition getAttribute (key : string) (v : ViewItem) : option string :=
  match node v with
  | ViewText _ => None
  | ViewElement _ attrs _ => assoc key attrs
  end.

(** [v.isEmpty]: an element without children. *)
Definition isEmpty (v : ViewItem) : bool :=
  match childNodes v with
  | [] => true
  | _ :: _ => false
  end.

(** [a === b] on nodes of one tree. *)
Definition same (a b : ViewItem) : bool := bool_decide (path a = path b).

Definition root (n : ViewNode) : ViewItem := mkItem [] n.

End View.

(** ** JavaScript numbers and [parseInt] *)

(** The numbers the scanner computes with are sums of parsed [colspan]
    values: integers, or [NaN] when an attribute does not parse.  Integers
    are kept exact, as JavaScript keeps them below 2^53; the rounding of
    larger values to doubles is not modelled. *)
Inductive JsNumber : Type :=
| NaN
| Num (z : Z).

Module Js.

Definition add (a b : JsNumber) : JsNumber :=
  match a, b with
  | Num x, Num y => Num (x + y)
  | _, _ => NaN
  end.

(** [a < b]; every comparison with [NaN] is false. *)
Definition lt (a b : JsNumber) : bool :=
  match a, b with
  | Num x, Num y => (x <? y)%Z
  | _, _ => false
  end.

(** Truthiness of a number: [0] and [NaN] are falsy. *)
Definition truthy (a : JsNumber) : bool :=
  match a with
  | NaN => false
  | Num z => negb (z =? 0)%Z
  end.

(** Truthiness of [number | undefined]. *)
Definition truthyOpt (a : option JsNumber) : bool :=
  match a with
  | None => false
  | Some x => truthy x
  end.

(** [a || 0] for [a : number | undefined]. *)
Definition orZero (a : option JsNumber) : JsNumber :=
  match a with
  | Some x => if truthy x then x else Num 0
  | None => Num 0
  end.

Definition isWhiteSpace (c : ascii) : bool :=
  let n := nat_of_ascii c in
  (((9 <=? n) && (n <=? 13)) || (n =? 32))%nat.

Fixpoint trimStart (s : string) : string :=
  match s with
  | String c rest => if isWhiteSpace c then trimStart rest else s
  | EmptyString => s
  end.

(** Value of [c] as a digit of the given radix (10 or 16). *)
Definition digit (radix : Z) (c : ascii) : option Z :=
  let n := Z.of_nat (nat_of_ascii c) in
  let d :=
    if ((48 <=? n) && (n <=? 57))%Z then Some (n - 48)%Z
    else if ((97 <=? n) && (n <=? 102))%Z then Some (n - 87)%Z
    else if ((65 <=? n) && (n <=? 70))%Z then Some (n - 55)%Z
    else None in
  match d with
  | Some x => if (x <? radix)%Z then Some x else None
  | None => None
  end.

(** Reads the longest prefix of digits; [acc] is [None] until a digit was
    read. *)
Fixpoint digits (radix : Z) (s : string) (acc : option Z) : option Z :=
  match s with
  | String c rest =>
      match digit radix c with
      | Some d =>
          digits radix rest
            (Some (match acc with Some a => a * radix + d | None => d end)%Z)
      | None => acc
      end
  | EmptyString => acc
  end.

(** [parseInt( s )] without a radix argument: leading white space (the
    ASCII white space characters; attribute values are taken as ASCII), an
    optional sign, an optional [0x]/[0X] prefix, then the longest run of
    digits; [NaN] when there is no digit. *)
Definition parseInt (s : string) : JsNumber :=
  let s1 := trimStart s in
  let '(sign, s2) :=
    match s1 with
    | String "-" rest => ((-1)%Z, rest)
    | String "+" rest => (1%Z, rest)
    | _ => (1%Z, s1)
    end in
  let '(radix, s3) :=
    match s2 with
    | String "0" (String "x" rest) => (16%Z, rest)
    | String "0" (String "X" rest) => (16%Z, rest)
    | _ => (10%Z, s2)
    end in
  match digits radix s3 None with
  | Some n => Num (sign * n)
  | None => NaN
  end.

(** [s || d] for [s : string | undefined]: the empty string is falsy. *)
Definition strOr (s : option string) (d : string) : string :=
  match s with
  | Some EmptyString => d
  | Some x => x
  | None => d
  end.

End Js.

(** ** The table scanner *)

(** [scanRowForHeadingColumns]: the [while] loop over the leading [th]
    cells, on the part of [children] from [index] on. *)
Fixpoint countStartingTh (children : list ViewItem) (headingColumns : JsNumber)
  : JsNumber :=
  match children with
  | th :: rest =>
      if View.nameIs "th" th then
        let colspan :=
          Js.parseInt (Js.strOr (View.getAttribute "colspan" th) "1") in
        countStartingTh rest (Js.add headingColumns colspan)
      else headingColumns
  | [] => headingColumns
  end.

Definition scanRowForHeadingColumns (tr : ViewItem) : JsNumber :=
  let children :=
    List.filter (fun child => View.nameIs "th" child || View.nameIs "td" child)
                (View.getChildren tr) in
  countStartingTh children (Num 0).

(** The local variables of [scanTable]. *)
Record ScanState : Type := mkScan {
  headingRows : nat;
  headingColumns : option JsNumber;
  footerRows : nat;
  headRows : list ViewItem;
  bodyRows : list ViewItem;
  footRows : list ViewItem;
  firstTheadElement : option ViewItem;
  firstTfootElement : option ViewItem
}.

Definition scanInit : ScanState :=
  mkScan 0 None 0 [] [] [] None None.

(** [first && tableChild === first] *)
Definition isSaved (first : option ViewItem) (tableChild : ViewItem) : bool :=
  match first with
  | Some f => View.same tableChild f
  | None => false
  end.

(** The test that makes a row a heading row. *)
Definition headingRowTest (st : ScanState) (tableChild tr : ViewItem) : bool :=
  isSaved (firstTheadElement st) tableChild
  || (View.nameIs "tbody" tableChild
      && negb (length (View.getChildren tr) =? 0)%nat
      && forallb (View.isElement "th") (View.getChildren tr)).

(** [if ( !headingColumns || headingCols < headingColumns ) headingColumns =
    headingCols], with [None] for [undefined]. *)
Definition updateHeadingColumns (headingColumns : option JsNumber)
    (headingCols : JsNumber) : option JsNumber :=
  if negb (Js.truthyOpt headingColumns)
     || match headingColumns with
        | Some h => Js.lt headingCols h
        | None => false
        end
  then Some headingCols
  else headingColumns.

(** Body of the inner loop [for ( const tr of trs )]. *)
Definition scanRow (tableChild : ViewItem) (st : ScanState) (tr : ViewItem)
  : ScanState :=
  if headingRowTest st tableChild tr then
    mkScan (S (headingRows st)) (headingColumns st) (footerRows st)
           (headRows st ++ [tr]) (bodyRows st) (footRows st)
           (firstTheadElement st) (firstTfootElement st)
  else if isSaved (firstTfootElement st) tableChild then
    mkScan (headingRows st) (headingColumns st) (S (footerRows st))
           (headRows st) (bodyRows st) (footRows st ++ [tr])
           (firstTheadElement st) (firstTfootElement st)
  else
    let headingCols := scanRowForHeadingColumns tr in
    mkScan (headingRows st)
           (updateHeadingColumns (headingColumns st) headingCols)
           (footerRows st)
           (headRows st) (bodyRows st ++ [tr]) (footRows st)
           (firstTheadElement st) (firstTfootElement st).

Definition isSection (tableChild : ViewItem) : bool :=
  View.nameIs "tbody" tableChild || View.nameIs "thead" tableChild
  || View.nameIs "tfoot" tableChild.

Definition saveFirst (n : string) (tableChild : ViewItem)
    (first : option ViewItem) : option ViewItem :=
  if View.nameIs n tableChild
     && match first with None => true | Some _ => false end
  then Some tableChild
  else first.

(** Body of the outer loop [for ( const tableChild of ... )]. *)
Definition scanSection (st : ScanState) (tableChild : ViewItem) : ScanState :=
  if negb (isSection tableChild) then st
  else
    let st1 :=
      mkScan (headingRows st) (headingColumns st) (footerRows st)
             (headRows st) (bodyRows st) (footRows st)
             (saveFirst "thead" tableChild (firstTheadElement st))
             (saveFirst "tfoot" tableChild (firstTfootElement st)) in
    let trs := List.filter (View.isElement "tr") (View.getChildren tableChild) in
    fold_left (scanRow tableChild) trs st1.

(** The state of [scanTable] when its loop is over. *)
Definition scanLoop (viewTable : ViewItem) : ScanState :=
  fold_left scanSection (View.getChildren viewTable) scanInit.

Record ScanResult : Type := mkScanResult {
  res_headingRows : nat;
  res_headingColumns : JsNumber;
  res_footerRows : nat;
  res_rows : list ViewItem
}.

Definition scanTable (viewTable : ViewItem) : ScanResult :=
  let st := scanLoop viewTable in
  mkScanResult (headingRows st) (Js.orZero (headingColumns st)) (footerRows st)
               (headRows st ++ bodyRows st ++ footRows st).

(** ** Rows in source order and their classification *)

Inductive RowKind : Type := Heading | Body | Footer.

Definition RowKind_eqb (a b : RowKind) : bool :=
  match a, b with
  | Heading, Heading | Body, Body | Footer, Footer => true
  | _, _ => false
  end.

(** The rows of one section: its [tr] children; other children (stray
    text) are ignored. *)
Definition sectionRows (section : ViewItem) : list ViewItem :=
  List.filter (View.isElement "tr") (View.getChildren section).

(** All rows below the given sections, in document order, each with the
    section it lies in. *)
Definition rowsOf (sections : list ViewItem) : list (ViewItem * ViewItem) :=
  flat_map (fun section => map (pair section) (sectionRows section))
           (List.filter isSection sections).

Definition sourceRows (viewTable : ViewItem) : list (ViewItem * ViewItem) :=
  rowsOf (View.getChildren viewTable).

(** The first section of the given kind among [sections], if any. *)
Definition firstSection (n : string) (sections : list ViewItem)
  : option ViewItem :=
  List.find (View.nameIs n) sections.

(** The classification of the specification (4.3, step 3), for a row [tr]
    of the section [section]. *)
Definition spec_classify (sections : list ViewItem)
    (section tr : ViewItem) : RowKind :=
  if isSaved (firstSection "thead" sections) section then Heading
  else if View.nameIs "tbody" section
          && negb (length (View.getChildren tr) =? 0)%nat
          && forallb (View.nameIs "th") (View.getChildren tr)
  then Heading
  else if isSaved (firstSection "tfoot" sections) section then Footer
  else Body.

Definition rowsOfKind (k : RowKind) (sections : list ViewItem)
    (rows : list (ViewItem * ViewItem)) : list ViewItem :=
  map snd
    (List.filter (fun p => RowKind_eqb (spec_classify sections (fst p) (snd p)) k)
                 rows).

(** The cells of a row: its [th] and [td] children. *)
Definition cells (tr : ViewItem) : list ViewItem :=
  List.filter (fun child => View.nameIs "th" child || View.nameIs "td" child)
              (View.getChildren tr).

(** The minimum of a list of numbers that starts with [z]. *)
Definition minimum (z : Z) (rest : list Z) : Z := fold_left Z.min rest z.

(** The bucket the scanner appended a row to. *)
Definition bucket (k : RowKind) (st : ScanState) : list ViewItem :=
  match k with
  | Heading => headRows st
  | Body => bodyRows st
  | Footer => footRows st
  end.

(** A row is classified [k] by the scanner when it ends up in the bucket of
    [k] and in no other one. *)
Definition classified (viewTable tr : ViewItem) (k : RowKind) : Prop :=
  forall k', In tr (bucket k' (scanLoop viewTable)) <-> k' = k.

(** ** Sample tables *)

Module Sample.

Definition text (s : string) : ViewNode := ViewText s.
Definition td (s : string) : ViewNode := ViewElement "td" [] [text s].
Definition th (s : string) : ViewNode := ViewElement "th" [] [text s].
Definition thSpan (n s : string) : ViewNode :=
  ViewElement "th" [("colspan", n)] [text s].
Definition tr (cells : list ViewNode) : ViewNode := ViewElement "tr" [] cells.
Definition tbody (rows : list ViewNode) : ViewNode :=
  ViewElement "tbody" [] rows.
Definition thead (rows : list ViewNode) : ViewNode :=
  ViewElement "thead" [] rows.
Definition tfoot (rows : list ViewNode) : ViewNode :=
  ViewElement "tfoot" [] rows.
Definition table (sections : list ViewNode) : ViewItem :=
  View.root (ViewElement "table" [] sections).

(** [<table><tbody><tr><td>2</td></tr></tbody>
           <thead><tr><td>1</td></tr></thead>
           <tbody><tr><td>3</td></tr></tbody></table>] *)
Definition unordered : ViewItem :=
  table [tbody [tr [td "2"]]; thead [tr [td "1"]]; tbody [tr [td "3"]]].

(** The text directly inside the given nodes. *)
Fixpoint ownText (l : list ViewNode) : string :=
  match l with
  | [] => ""
  | ViewText s :: rest => String.append s (ownText rest)
  | ViewElement _ _ _ :: rest => ownText rest
  end.

(** The text of the cells of a row, for cells that hold text only. *)
Definition rowText (tr : ViewItem) : string :=
  String.concat ""
    (map (fun cell => ownText (View.childNodes cell)) (View.getChildren tr)).

(** Body rows whose leading heading-cell runs are 3, 1 and 2. *)
Definition runs312 : ViewItem :=
  table [tbody [tr [thSpan "2" "a"; th "b"; td "c"];
                tr [th "a"; td "b"; td "c"];
                tr [th "a"; th "b"; td "c"]]].

(** A body row without leading heading cell, then one with a run of 2. *)
Definition runs02 : ViewItem :=
  table [tbody [tr [td "a"; td "b"; td "c"];
                tr [th "a"; th "b"; td "c"]]].

(** The same rows in the other order. *)
Definition runs20 : ViewItem :=
  table [tbody [tr [th "a"; th "b"; td "c"];
                tr [td "a"; td "b"; td "c"]]].

(** A body section with a row of data cells, a row of heading cells only
    and a row without cells. *)
Definition bodyHeading : ViewItem :=
  table [tbody [tr [td "a"; td "b"]; tr [th "c"; th "d"]; tr []]].

(** The child of a node at the given index. *)
Definition child (i : nat) (v : ViewItem) : ViewItem :=
  nth i (View.getChildren v) v.

(** Two head sections and two foot sections. *)
Definition twoHeads : ViewItem :=
  table [thead [tr [th "h1"]]; thead [tr [th "h2"]];
         tfoot [tr [td "f1"]]; tfoot [tr [th "f2"]];
         tbody [tr [td "b"]]].

End Sample.

(** ** The inner loop by row kind, and the loop invariant *)

(** The test chain of the inner loop, for given saved first sections. *)
Definition kindWith (firstThead firstTfoot : option ViewItem)
    (tableChild tr : ViewItem) : RowKind :=
  if isSaved firstThead tableChild
     || (View.nameIs "tbody" tableChild
         && negb (length (View.getChildren tr) =? 0)%nat
         && forallb (View.isElement "th") (View.getChildren tr))
  then Heading
  else if isSaved firstTfoot tableChild then Footer
  else Body.

Definition keep (k : RowKind) (kind : ViewItem -> RowKind) (trs : list ViewItem)
  : list ViewItem :=
  List.filter (fun tr => RowKind_eqb (kind tr) k) trs.

Definition foldHeadingColumns (rows : list ViewItem) (h : option JsNumber)
  : option JsNumber :=
  fold_left updateHeadingColumns (map scanRowForHeadingColumns rows) h.

(** What the scanner has computed when the sections [pre] of the table
    children [sections] are done. *)
Record scanned (sections pre : list ViewItem) (st : ScanState) : Prop := {
  sc_thead : firstTheadElement st = firstSection "thead" pre;
  sc_tfoot : firstTfootElement st = firstSection "tfoot" pre;
  sc_head : headRows st = rowsOfKind Heading sections (rowsOf pre);
  sc_body : bodyRows st = rowsOfKind Body sections (rowsOf pre);
  sc_foot : footRows st = rowsOfKind Footer sections (rowsOf pre);
  sc_headingRows : headingRows st = length (headRows st);
  sc_footerRows : footerRows st = length (footRows st);
  sc_headingColumns : headingColumns st = foldHeadingColumns (bodyRows st) None
}.


(** ** The semantic tree (model) and its writer *)

(** Nodes of the store are named by natural numbers. *)
Abbreviation NodeId := nat (only parsing).

(** Attribute values of semantic nodes are scalars. *)
Inductive Scalar : Type :=
| SNum (n : JsNumber)
| SStr (s : string).

(** Modelled from the spec: the semantic node of section 3 (the engine's
    model element is not part of the sources): a name, attributes (key to
    scalar) and an ordered sequence of children.  Nodes are mutable objects;
    they live in a store and are referred to by their identifier. *)
Record ModelNode : Type := mkNode {
  mname : string;
  mattrs : gmap string Scalar;
  mchildren : list NodeId
}.

Record Model : Type := mkModel {
  nodes : gmap nat ModelNode;
  nextId : nat
}.

(** Modelled from the spec: the cursor of section 3, a node and an offset
    among its children. *)
Record Position : Type := mkPos { parent : NodeId; offset : nat }.

Record Range : Type := mkRange { start : Position; end_ : Position }.

(** Modelled from the spec: the part of the engine's model API (elements,
    positions and the writer, none of them part of the sources) that the
    converters call, on the semantic nodes and cursors of section 3. *)
Module Writer.

Definition children (id : NodeId) (m : Model) : list NodeId :=
  match nodes m !! id with
  | Some n => mchildren n
  | None => []
  end.

(** [element.isEmpty] *)
Definition isEmpty (id : NodeId) (m : Model) : bool :=
  match children id m with
  | [] => true
  | _ :: _ => false
  end.

(** [node.is( 'element', n )] *)
Definition isElement (n : string) (m : Model) (id : NodeId) : bool :=
  match nodes m !! id with
  | Some x => String.eqb (mname x) n
  | None => false
  end.

(** [position.index]: nodes of the semantic tree take one offset each. *)
Definition index (p : Position) : nat := offset p.

(** [position.nodeAfter], [None] standing for [null]. *)
Definition nodeAfter (p : Position) (m : Model) : option NodeId :=
  children (parent p) m !! offset p.

(** [writer.createPositionAt( node, 'end' )] *)
Definition createPositionAtEnd (id : NodeId) (m : Model) : Position :=
  mkPos id (length (children id m)).

(** [writer.createPositionAt( node, offset )] *)
Definition createPositionAt (id : NodeId) (o : nat) : Position := mkPos id o.

Definition setChildren (f : list NodeId -> list NodeId) (n : ModelNode)
  : ModelNode :=
  mkNode (mname n) (mattrs n) (f (mchildren n)).

Definition spliceAt (o : nat) (id : NodeId) (l : list NodeId) : list NodeId :=
  take o l ++ id :: drop o l.

Definition without (id : NodeId) (l : list NodeId) : list NodeId :=
  List.filter (fun c => negb (Nat.eqb c id)) l.

(** Modelled from the spec: [writer.createElement( name, attributes )]
    allocates a new node without parent and without children. *)
Definition createElement (n : string) (attrs : gmap string Scalar) (m : Model)
  : NodeId * Model :=
  (nextId m,
   mkModel (<[nextId m := mkNode n attrs []]> (nodes m)) (S (nextId m))).

(** Modelled from the spec: [writer.insert( node, position )] makes the
    node a child of the position's parent at the position's offset. *)
Definition insert (id : NodeId) (p : Position) (m : Model) : Model :=
  mkModel (alter (setChildren (spliceAt (offset p) id)) (parent p) (nodes m))
          (nextId m).

(** [writer.insertElement( name, position )] *)
Definition insertElement (n : string) (p : Position) (m : Model) : Model :=
  let '(id, m1) := createElement n ∅ m in
  insert id p m1.

(** Takes the node out of the children of its parent. *)
Definition detach (id : NodeId) (m : Model) : Model :=
  mkModel (setChildren (without id) <$> nodes m) (nextId m).

(** Modelled from the spec: [writer.move( writer.createRangeOn( node ),
    position )] takes the node out of its parent and makes it a child at
    the position, which is shifted by the removal when it lies behind the
    node in the same parent. *)
Definition move (id : NodeId) (p : Position) (m : Model) : Model :=
  let o := length (without id (take (offset p) (children (parent p) m))) in
  insert id (mkPos (parent p) o) (detach id m).

End Writer.

(** Modelled from the spec: [createEmptyTableCell( writer, position )] of
    [utils/common] is not part of the sources; the specification (4.4,
    step 7) has it synthesize one empty cell at the position. *)
Definition createEmptyTableCell (p : Position) (m : Model) : NodeId * Model :=
  let '(tableCell, m1) := Writer.createElement "tableCell" ∅ m in
  (tableCell, Writer.insert tableCell p m1).

(** ** The consumable tracker *)

(** The aspects of a view node the converters claim: its name and single
    classes. *)
Inductive Aspect : Type :=
| AName
| AClass (c : string).

#[global] Instance Aspect_eq_dec : EqDecision Aspect.
Proof. solve_decision. Defined.

#[global] Instance Aspect_countable : Countable Aspect.
Proof.
  refine (inj_countable'
            (fun a => match a with AName => inl tt | AClass c => inr c end)
            (fun x => match x with inl _ => AName | inr c => AClass c end) _).
  intros []; reflexivity.
Defined.

(** Modelled from the spec: the consumable tracker of section 4.1 (the
    engine's view consumable is not part of the sources), as the set of
    consumed (node, aspect) pairs. *)
Module Consumable.

Definition keys (v : ViewItem) (aspects : list Aspect)
  : gset (list nat * Aspect) :=
  list_to_set (map (pair (path v)) aspects).

(** True iff none of the aspects was consumed for the node. *)
Definition test (c : gset (list nat * Aspect)) (v : ViewItem)
    (aspects : list Aspect) : bool :=
  forallb (fun a => bool_decide ((path v, a) ∉ c)) aspects.

Definition consume (c : gset (list nat * Aspect)) (v : ViewItem)
    (aspects : list Aspect) : gset (list nat * Aspect) :=
  c ∪ keys v aspects.

Definition revert (c : gset (list nat * Aspect)) (v : ViewItem)
    (aspects : list Aspect) : gset (list nat * Aspect) :=
  c ∖ keys v aspects.

End Consumable.

(** ** The conversion API *)

(** The mutable state of one conversion pass. *)
Record ConvState : Type := mkState {
  consumable : gset (list nat * Aspect);
  model : Model
}.

(** The [data] object of an upcast event. *)
Record Data : Type := mkData {
  viewItem : ViewItem;
  modelCursor : Position;
  modelRange : option Range
}.

Record ConversionResult : Type := mkResult {
  cr_modelRange : option Range;
  cr_modelCursor : Position
}.

(** The functions of [conversionApi] that run other converters or belong to
    the engine; the converters below are stated for any such functions.
    [convertItem] and [convertChildren] run arbitrary converters on the whole
    state; [safeInsert] gets a model node and a position and works on the
    model only. *)
Record ConversionApi : Type := mkApi {
  convertItem : ViewItem -> Position -> ConvState -> ConversionResult * ConvState;
  convertChildren :
    ViewItem -> Position -> ConvState -> ConversionResult * ConvState;
  safeInsert : NodeId -> Position -> Model -> bool * Model;
  updateConversionResult : NodeId -> Data -> ConvState -> Data;
  (** [range.getItems()] *)
  getItems : Range -> Model -> list NodeId
}.

(** [first( iterator )] of the utils: the first item, if there is one. *)
Definition first {A : Type} (items : list A) : option A :=
  match items with
  | x :: _ => Some x
  | [] => None
  end.

(** ** The converters *)

(** [getViewTableFromFigure] *)
Definition getViewTableFromFigure (figureView : ViewItem) : option ViewItem :=
  List.find (View.isElement "table") (View.getChildren figureView).

Definition figureAspects : list Aspect := [AName; AClass "table"].

(** The listener of [upcastTableFigure]; [None] is a thrown error (the
    non-null assertion on [conversionResult.modelRange] failed). *)
Definition upcastTableFigure (conversionApi : ConversionApi)
    (data : Data) (s : ConvState) : option (Data * ConvState) :=
  if negb (Consumable.test (consumable s) (viewItem data) figureAspects)
  then Some (data, s)
  else
    match getViewTableFromFigure (viewItem data) with
    | None => Some (data, s)
    | Some viewTable =>
        if negb (Consumable.test (consumable s) viewTable [AName])
        then Some (data, s)
        else
          let s1 :=
            mkState (Consumable.consume (consumable s) (viewItem data)
                                        figureAspects)
                    (model s) in
          let '(conversionResult, s2) :=
            convertItem conversionApi viewTable (modelCursor data) s1 in
          match cr_modelRange conversionResult with
          | None => None
          | Some range =>
              match first (getItems conversionApi range (model s2)) with
              | None =>
                  Some (data,
                        mkState (Consumable.revert (consumable s2)
                                                   (viewItem data) figureAspects)
                                (model s2))
              | Some modelTable =>
                  let '(_, s3) :=
                    convertChildren conversionApi (viewItem data)
                      (Writer.createPositionAtEnd modelTable (model s2)) s2 in
                  Some (updateConversionResult conversionApi modelTable data s3,
                        s3)
              end
          end
    end.

Definition natNum (n : nat) : JsNumber := Num (Z.of_nat n).

(** The [attributes] object of [upcastTable]: only values greater than 0
    are set. *)
Definition tableAttributes (r : ScanResult) : gmap string Scalar :=
  let a0 : gmap string Scalar := ∅ in
  let a1 :=
    if Js.truthy (res_headingColumns r)
    then <["headingColumns" := SNum (res_headingColumns r)]> a0 else a0 in
  let a2 :=
    if Js.truthy (natNum (res_headingRows r))
    then <["headingRows" := SNum (natNum (res_headingRows r))]> a1 else a1 in
  if Js.truthy (natNum (res_footerRows r))
  then <["footerRows" := SNum (natNum (res_footerRows r))]> a2 else a2.

(** [rows.forEach( row => conversionApi.convertItem( row, end of table ) )] *)
Definition convertRows (conversionApi : ConversionApi) (table : NodeId)
    (rows : list ViewItem) (s : ConvState) : ConvState :=
  fold_left
    (fun s row =>
       snd (convertItem conversionApi row
              (Writer.createPositionAtEnd table (model s)) s))
    rows s.

(** [upcastTable] once the table is inserted and consumed: the rows, then
    everything else. *)
Definition upcastTableContent (conversionApi : ConversionApi) (table : NodeId)
    (viewTable : ViewItem) (rows : list ViewItem) (s : ConvState) : ConvState :=
  let s1 := convertRows conversionApi table rows s in
  snd (convertChildren conversionApi viewTable
         (Writer.createPositionAtEnd table (model s1)) s1).

(** [if ( table.isEmpty ) { ... }]: one row and one table cell for an empty
    table. *)
Definition fillEmptyTable (table : NodeId) (m : Model) : Model :=
  if Writer.isEmpty table m then
    let '(row, m1) := Writer.createElement "tableRow" ∅ m in
    let m2 := Writer.insert row (Writer.createPositionAtEnd table m1) m1 in
    snd (createEmptyTableCell (Writer.createPositionAtEnd row m2) m2)
  else m.

(** The state [upcastTable] starts the conversion of the content from: the
    name of the view table is consumed. *)
Definition upcastTableConsumed (viewTable : ViewItem) (s : ConvState) (m : Model)
  : ConvState :=
  mkState (Consumable.consume (consumable s) viewTable [AName]) m.

(** The listener of [upcastTable]. *)
Definition upcastTable (conversionApi : ConversionApi)
    (data : Data) (s : ConvState) : Data * ConvState :=
  let viewTable := viewItem data in
  if negb (Consumable.test (consumable s) viewTable [AName]) then (data, s)
  else
    let r := scanTable viewTable in
    let '(table, m1) :=
      Writer.createElement "table" (tableAttributes r) (model s) in
    let '(inserted, m2) := safeInsert conversionApi table (modelCursor data) m1 in
    if negb inserted then (data, mkState (consumable s) m2)
    else
      let s3 := upcastTableConsumed viewTable s m2 in
      let s5 := upcastTableContent conversionApi table viewTable (res_rows r) s3 in
      let s6 := mkState (consumable s5) (fillEmptyTable table (model s5)) in
      (updateConversionResult conversionApi table data s6, s6).

(** The event object of a listener. *)
Record EventInfo : Type := mkEvent { stopped : bool }.

Definition stop (evt : EventInfo) : EventInfo := mkEvent true.

(** The listener of [skipEmptyTableRow]. *)
Definition skipEmptyTableRow (evt : EventInfo) (data : Data) : EventInfo :=
  if View.isEmpty (viewItem data) && (Writer.index (modelCursor data) =? 0)%nat
  then stop evt
  else evt.

(** The loop of [ensureParagraphInTableCell] that moves the nodes into the
    paragraph. *)
Definition moveAll (paragraph : NodeId) (childNodes : list NodeId) (m : Model)
  : Model :=
  fold_left
    (fun m node =>
       Writer.move node (Writer.createPositionAtEnd paragraph m) m)
    childNodes m.

(** The listener of [ensureParagraphInTableCell]; [None] is a thrown error
    (no node after the start of the range). *)
Definition ensureParagraphInTableCell (data : Data) (m : Model) : option Model :=
  match modelRange data with
  | None => Some m
  | Some range =>
      match Writer.nodeAfter (start range) m with
      | None => None
      | Some tableCell =>
          let modelCursor := Writer.createPositionAt tableCell 0 in
          if View.isEmpty (viewItem data) then
            Some (Writer.insertElement "paragraph" modelCursor m)
          else
            let childNodes := Writer.children tableCell m in
            if forallb (Writer.isElement "$marker" m) childNodes then
              let '(paragraph, m1) := Writer.createElement "paragraph" ∅ m in
              let m2 :=
                Writer.insert paragraph (Writer.createPositionAt tableCell 0) m1 in
              Some (moveAll paragraph childNodes m2)
            else Some m
      end
  end.

(** ** The dispatcher *)

Definition Listener : Type :=
  EventInfo -> Data -> ConvState -> option (EventInfo * Data * ConvState).

Inductive Priority : Type := High | Normal | Low.

Definition rank (p : Priority) : nat :=
  match p with
  | High => 2
  | Normal => 1
  | Low => 0
  end.

(** Modelled from the spec: registration on the dispatcher of section 4.2
    (the engine's emitter is not part of the sources).  A listener is put
    behind the registered listeners of the same or a higher priority. *)
Fixpoint on (p : Priority) (callback : Listener)
    (listeners : list (Priority * Listener)) : list (Priority * Listener) :=
  match listeners with
  | [] => [(p, callback)]
  | l :: rest =>
      if (rank (fst l) <? rank p)%nat then (p, callback) :: listeners
      else l :: on p callback rest
  end.

(** Modelled from the spec: firing an event calls the listeners in
    descending priority until one of them stops the event. *)
Fixpoint fire (listeners : list (Priority * Listener)) (evt : EventInfo)
    (data : Data) (s : ConvState) : option (EventInfo * Data * ConvState) :=
  match listeners with
  | [] => Some (evt, data, s)
  | l :: rest =>
      match snd l evt data s with
      | Some (evt', data', s') =>
          if stopped evt' then Some (evt', data', s')
          else fire rest evt' data' s'
      | None => None
      end
  end.

(** [skipEmptyTableRow] as registered on the dispatcher. *)
Definition skipEmptyTableRowListener : Listener :=
  fun evt data s => Some (skipEmptyTableRow evt data, data, s).

(** [skipEmptyTableRow()( dispatcher )] *)
Definition registerSkipEmptyTableRow (listeners : list (Priority * Listener))
  : list (Priority * Listener) :=
  on High skipEmptyTableRowListener listeners.

(** ** Well-formed models *)

(** Every node of the store was allocated, the children of a node are nodes
    of the store, and no node occurs twice among the children of a node. *)
Definition wf_model (m : Model) : Prop :=
  forall id n, nodes m !! id = Some n ->
    (id < nextId m)%nat
    /\ Forall (fun c => is_Some (nodes m !! c)) (mchildren n)
    /\ NoDup (mchildren n).

(** The same as a test. *)
Definition wf_modelb (m : Model) : bool :=
  forallb
    (fun e : nat * ModelNode =>
       (fst e <? nextId m)%nat
       && forallb (fun c => bool_decide (is_Some (nodes m !! c)))
                  (mchildren (snd e))
       && bool_decide (NoDup (mchildren (snd e))))
    (map_to_list (nodes m)).

(** ** Sample conversions *)

Module Demo.

(** A model that holds the root element only. *)
Definition rootModel : Model :=
  mkModel {[ 0%nat := mkNode "$root" ∅ [] ]} 1.

Definition initial : ConvState := mkState ∅ rootModel.

Definition atRoot (v : ViewItem) : Data := mkData v (mkPos 0 0) None.

Definition after (p : Position) : Position := mkPos (parent p) (S (offset p)).

(** Converts a [tr] into a [tableRow] that records the text of the row;
    converts nothing else. *)
Definition convertRow (v : ViewItem) (p : Position) (s : ConvState)
  : ConversionResult * ConvState :=
  if View.isElement "tr" v then
    let '(row, m1) :=
      Writer.createElement "tableRow" {[ "text" := SStr (Sample.rowText v) ]}
                           (model s) in
    (mkResult (Some (mkRange p (after p))) (after p),
     mkState (consumable s) (Writer.insert row p m1))
  else (mkResult None p, s).

(** Converts nothing and reports an empty range. *)
Definition convertNothing (v : ViewItem) (p : Position) (s : ConvState)
  : ConversionResult * ConvState :=
  (mkResult (Some (mkRange p p)) p, s).

Definition acceptInsert (id : NodeId) (p : Position) (m : Model) : bool * Model :=
  (true, Writer.insert id p m).

Definition rejectInsert (id : NodeId) (p : Position) (m : Model) : bool * Model :=
  (false, m).

Definition reportRange (id : NodeId) (data : Data) (s : ConvState) : Data :=
  mkData (viewItem data) (after (modelCursor data))
         (Some (mkRange (modelCursor data) (after (modelCursor data)))).

(** The nodes between the two positions of a range in one parent. *)
Definition itemsBetween (r : Range) (m : Model) : list NodeId :=
  take (offset (end_ r) - offset (start r))
       (drop (offset (start r)) (Writer.children (parent (start r)) m)).

Definition rowsApi : ConversionApi :=
  mkApi convertRow convertNothing acceptInsert reportRange itemsBetween.

Definition emptyApi : ConversionApi :=
  mkApi convertNothing convertNothing acceptInsert reportRange itemsBetween.

Definition rejectingApi : ConversionApi :=
  mkApi convertRow convertNothing rejectInsert reportRange itemsBetween.

(** The text recorded in a row made by [convertRow]. *)
Definition recordedText (m : Model) (row : NodeId) : option Scalar :=
  match nodes m !! row with
  | Some n => mattrs n !! "text"
  | None => None
  end.

Definition attribute (m : Model) (id : NodeId) (key : string) : option Scalar :=
  match nodes m !! id with
  | Some n => mattrs n !! key
  | None => None
  end.

(** [<table></table>] *)
Definition emptyTable : ViewItem := Sample.table [].

(** [<figure class="table"><table></table></figure>] *)
Definition figure : ViewItem :=
  View.root (ViewElement "figure" [("class", "table")]
                         [ViewElement "table" [] []]).

(** A table cell holding two markers, and its parent row. *)
Definition markerCell : Model :=
  mkModel {[ 0%nat := mkNode "tableRow" ∅ [1%nat];
             1%nat := mkNode "tableCell" ∅ [2%nat; 3%nat];
             2%nat := mkNode "$marker" ∅ [];
             3%nat := mkNode "$marker" ∅ [] ]} 4.

(** A table cell without children, and its parent row. *)
Definition bareCell : Model :=
  mkModel {[ 0%nat := mkNode "tableRow" ∅ [1%nat];
             1%nat := mkNode "tableCell" ∅ [] ]} 2.

Definition cellRange : Range := mkRange (mkPos 0 0) (mkPos 0 1).

(** [<td></td>] and [<td><span></span></td>] with a produced range. *)
Definition emptyCellData : Data :=
  mkData (View.root (ViewElement "td" [] [])) (mkPos 0 1) (Some cellRange).

Definition filledCellData : Data :=
  mkData (View.root (ViewElement "td" [] [ViewElement "span" [] []]))
         (mkPos 0 1) (Some cellRange).

(** [<tr></tr>] arriving at the given offset of the table. *)
Definition emptyRowAt (o : nat) : Data :=
  mkData (View.root (ViewElement "tr" [] [])) (mkPos 0 o) None.

(** A listener of normal priority that reports a produced row. *)
Definition rowListener : Listener :=
  fun evt data s =>
    Some (evt,
          mkData (viewItem data) (after (modelCursor data))
                 (Some (mkRange (modelCursor data) (after (modelCursor data)))),
          s).

End Demo.

(** ** Further notions for the scanner *)

(** The [colspan] of a heading cell as [scanRowForHeadingColumns] reads it:
    a missing or empty attribute counts as 1. *)
Definition colspanOf (th : ViewItem) : JsNumber :=
  Js.parseInt (Js.strOr (View.getAttribute "colspan" th) "1").

(** The maximal run of [th] elements at the front of a list of cells. *)
Fixpoint leadingTh (children : list ViewItem) : list ViewItem :=
  match children with
  | c :: rest => if View.nameIs "th" c then c :: leadingTh rest else []
  | [] => []
  end.

Definition jsSum (l : list JsNumber) : JsNumber := fold_right Js.add (Num 0) l.

(** A node that is a [th] or a [td] element. *)
Definition isCellNode (n : ViewNode) : bool :=
  match n with
  | ViewElement name _ _ => String.eqb name "th" || String.eqb name "td"
  | ViewText _ => false
  end.

Definition kindRank (k : RowKind) : nat :=
  match k with
  | Heading => 0
  | Body => 1
  | Footer => 2
  end.

(** The rows of the table stand in canonical order in the source: no body
    row before a heading row, no footer row before a body or heading row. *)
Definition canonicalSource (viewTable : ViewItem) : Prop :=
  StronglySorted le
    (map (fun p => kindRank (spec_classify (View.getChildren viewTable)
                                           (fst p) (snd p)))
         (sourceRows viewTable)).

Module Sample2.

(** A head section, a body section, a foot section, in this order. *)
Definition ordered : ViewItem :=
  Sample.table [Sample.thead [Sample.tr [Sample.th "h"]];
                Sample.tbody [Sample.tr [Sample.td "a"];
                              Sample.tr [Sample.th "b"; Sample.td "c"]];
                Sample.tfoot [Sample.tr [Sample.td "f"]]].

(** A body row of heading cells with a text node between them. *)
Definition strayText : ViewItem :=
  Sample.table [Sample.tbody [Sample.tr [Sample.th "a"; Sample.text " ";
                                         Sample.th "b"]]].

(** A caption and a row directly below the table, without any section. *)
Definition noSections : ViewItem :=
  Sample.table [ViewElement "caption" [] [Sample.text "c"];
                Sample.tr [Sample.td "a"]].

(** [<figure class="table"><figcaption></figcaption></figure>] *)
Definition figureWithoutTable : ViewItem :=
  View.root (ViewElement "figure" [("class", "table")]
                         [ViewElement "figcaption" [] []]).

(** A table cell that holds a paragraph, and its parent row. *)
Definition filledCell : Model :=
  mkModel {[ 0%nat := mkNode "tableRow" ∅ [1%nat];
             1%nat := mkNode "tableCell" ∅ [2%nat];
             2%nat := mkNode "paragraph" ∅ [] ]} 3.

(** A table with one row, below the root. *)
Definition tableWithRow : Model :=
  mkModel {[ 0%nat := mkNode "$root" ∅ [1%nat];
             1%nat := mkNode "table" ∅ [2%nat];
             2%nat := mkNode "tableRow" ∅ [] ]} 3.

(** A table without children, below the root. *)
Definition tableWithoutRow : Model :=
  mkModel {[ 0%nat := mkNode "$root" ∅ [1%nat];
             1%nat := mkNode "table" ∅ [] ]} 2.

(** [<figure class="table"><table>...</table></figure>] around the table
    with the sections tbody, thead, tbody. *)
Definition figureWithTable : ViewItem :=
  View.root (ViewElement "figure" [("class", "table")]
                         [node Sample.unordered]).

(** The conversion of an item by one listener: the range and the cursor the
    listener left in [data]. *)
Definition convertWith (listener : Data -> ConvState -> Data * ConvState)
    (v : ViewItem) (p : Position) (s : ConvState)
  : ConversionResult * ConvState :=
  let '(data, s') := listener (mkData v p None) s in
  (mkResult (modelRange data) (modelCursor data), s').

(** An API that converts tables with [upcastTable] and rows as
    [Demo.rowsApi] does. *)
Definition figureApi : ConversionApi :=
  mkApi (convertWith (upcastTable Demo.rowsApi)) Demo.convertNothing
        Demo.acceptInsert Demo.reportRange Demo.itemsBetween.

(** A converter that makes a paragraph of whatever it is given, and reports
    the range around it. *)
Definition convertToParagraph (v : ViewItem) (p : Position) (s : ConvState)
  : ConversionResult * ConvState :=
  let '(paragraph, m1) := Writer.createElement "paragraph" ∅ (model s) in
  (mkResult (Some (mkRange p (Demo.after p))) (Demo.after p),
   mkState (consumable s) (Writer.insert paragraph p m1)).

Definition paragraphApi : ConversionApi :=
  mkApi convertToParagraph Demo.convertNothing Demo.acceptInsert
        Demo.reportRange Demo.itemsBetween.

End Sample2.

(** ** The revert of the figure handler, as the specification words it *)

(** No node of the model is a [table] element. *)
Definition holdsNoTable (m : Model) : bool :=
  forallb (fun e : nat * ModelNode => negb (String.eqb (mname (snd e)) "table"))
          (map_to_list (nodes m)).

(** The statement of the specification (4.5, step 5): whenever the dispatch
    of the inner table produced no semantic table node, the handler returns
    with the figure claimable again. *)
Definition spec_figure_reverts : Prop :=
  forall (conversionApi : ConversionApi) (data : Data) (s s2 : ConvState)
         (viewTable : ViewItem) (conversionResult : ConversionResult),
    Consumable.test (consumable s) (viewItem data) figureAspects = true ->
    getViewTableFromFigure (viewItem data) = Some viewTable ->
    Consumable.test (consumable s) viewTable [AName] = true ->
    convertItem conversionApi viewTable (modelCursor data)
      (mkState (Consumable.consume (consumable s) (viewItem data) figureAspects)
               (model s))
    = (conversionResult, s2) ->
    holdsNoTable (model s2) = true ->
    exists data' s',
      upcastTableFigure conversionApi data s = Some (data', s')
      /\ Consumable.test (consumable s') (viewItem data) figureAspects = true.

(** ** Contracts for the functions of the conversion API *)

(** No node of the model has the node as a child. *)
Definition detached (id : nat) (m : Model) : Prop :=
  forall x n, nodes m !! x = Some n -> ~ In id (mchildren n).

(** The model [m'] is well-formed and still holds the nodes of [m]. *)
Definition modelStep (m m' : Model) : Prop :=
  wf_model m' /\ forall x, is_Some (nodes m !! x) -> is_Some (nodes m' !! x).

(** The functions of the API keep the model well-formed and remove no node;
    [safeInsert] is called on a node of the model that is nobody's child. *)
Record keepsModels (conversionApi : ConversionApi) : Prop := {
  km_convertItem :
    forall v p s, wf_model (model s) ->
      modelStep (model s) (model (snd (convertItem conversionApi v p s)));
  km_convertChildren :
    forall v p s, wf_model (model s) ->
      modelStep (model s) (model (snd (convertChildren conversionApi v p s)));
  km_safeInsert :
    forall id p m, wf_model m -> is_Some (nodes m !! id) -> detached id m ->
      modelStep m (snd (safeInsert conversionApi id p m))
}.

(** The converters the API runs consume aspects and revert none. *)
Record onlyConsumes (conversionApi : ConversionApi) : Prop := {
  oc_convertItem :
    forall v p s,
      consumable s ⊆ consumable (snd (convertItem conversionApi v p s));
  oc_convertChildren :
    forall v p s,
      consumable s ⊆ consumable (snd (convertChildren conversionApi v p s))
}.
(** ** The scanner against the classification of the specification *)

Lemma scanRow_eq (tableChild tr : ViewItem) (st : ScanState) :
  scanRow tableChild st tr =
  match kindWith (firstTheadElement st) (firstTfootElement st) tableChild tr with
  | Heading =>
      mkScan (S (headingRows st)) (headingColumns st) (footerRows st)
             (headRows st ++ [tr]) (bodyRows st) (footRows st)
             (firstTheadElement st) (firstTfootElement st)
  | Footer =>
      mkScan (headingRows st) (headingColumns st) (S (footerRows st))
             (headRows st) (bodyRows st) (footRows st ++ [tr])
             (firstTheadElement st) (firstTfootElement st)
  | Body =>
      mkScan (headingRows st)
             (updateHeadingColumns (headingColumns st)
                                   (scanRowForHeadingColumns tr))
             (footerRows st)
             (headRows st) (bodyRows st ++ [tr]) (footRows st)
             (firstTheadElement st) (firstTfootElement st)
  end.
Proof.
  unfold scanRow, headingRowTest, kindWith.
  destruct (isSaved (firstTheadElement st) tableChild || _); [reflexivity|].
  destruct (isSaved (firstTfootElement st) tableChild); reflexivity.
Qed.

Lemma keep_cons (k : RowKind) (kind : ViewItem -> RowKind) tr trs :
  keep k kind (tr :: trs) =
  if RowKind_eqb (kind tr) k then tr :: keep k kind trs else keep k kind trs.
Proof. reflexivity. Qed.

Lemma scanRow_fold (tableChild : ViewItem) (trs : list ViewItem) :
  forall st : ScanState,
    let kind := kindWith (firstTheadElement st) (firstTfootElement st) tableChild in
    fold_left (scanRow tableChild) trs st =
    mkScan (headingRows st + length (keep Heading kind trs))
           (foldHeadingColumns (keep Body kind trs) (headingColumns st))
           (footerRows st + length (keep Footer kind trs))
           (headRows st ++ keep Heading kind trs)
           (bodyRows st ++ keep Body kind trs)
           (footRows st ++ keep Footer kind trs)
           (firstTheadElement st) (firstTfootElement st).
Proof.
  induction trs as [|tr trs IH]; intros st kind.
  - simpl. rewrite !Nat.add_0_r, !app_nil_r. destruct st; reflexivity.
  - simpl fold_left. rewrite IH, scanRow_eq. clear IH.
    rewrite !keep_cons. fold kind.
    destruct (kind tr) eqn:K;
      cbn [headingRows headingColumns footerRows headRows bodyRows footRows
           firstTheadElement firstTfootElement RowKind_eqb length];
      fold kind; rewrite <- ?app_assoc; cbn [app];
      f_equal; lia.
Qed.

Lemma find_snoc {A : Type} (f : A -> bool) (l : list A) (x : A) :
  List.find f (l ++ [x]) =
  match List.find f l with
  | Some y => Some y
  | None => if f x then Some x else None
  end.
Proof.
  induction l as [|a l IH]; simpl; [reflexivity|].
  destruct (f a); [reflexivity | exact IH].
Qed.

Lemma find_app_some {A : Type} (f : A -> bool) (l1 l2 : list A) (y : A) :
  List.find f l1 = Some y -> List.find f (l1 ++ l2) = Some y.
Proof.
  induction l1 as [|a l1 IH]; simpl; [discriminate|].
  destruct (f a); [trivial | exact IH].
Qed.

Lemma find_app_none {A : Type} (f : A -> bool) (l1 l2 : list A) :
  List.find f l1 = None -> List.find f (l1 ++ l2) = List.find f l2.
Proof.
  induction l1 as [|a l1 IH]; simpl; [reflexivity|].
  destruct (f a); [discriminate | exact IH].
Qed.

Lemma saveFirst_find (n : string) (pre : list ViewItem) (x : ViewItem) :
  saveFirst n x (firstSection n pre) = firstSection n (pre ++ [x]).
Proof.
  unfold saveFirst, firstSection. rewrite find_snoc.
  destruct (List.find (View.nameIs n) pre);
    [rewrite andb_false_r | rewrite andb_true_r]; reflexivity.
Qed.

(** Whether a section of a prefix is the saved one does not change when
    more sections follow: positions are pairwise different. *)
Lemma isSaved_extend (n : string) (l1 l2 : list ViewItem) (x : ViewItem) :
  NoDup (map path (l1 ++ l2)) -> In x l1 ->
  isSaved (firstSection n (l1 ++ l2)) x = isSaved (firstSection n l1) x.
Proof.
  intros Hnd Hin. unfold firstSection.
  destruct (List.find (View.nameIs n) l1) as [y|] eqn:F.
  - rewrite (find_app_some _ _ l2 _ F). reflexivity.
  - rewrite (find_app_none _ _ l2 F).
    destruct (List.find (View.nameIs n) l2) as [y|] eqn:F2; [|reflexivity].
    simpl. unfold View.same. apply bool_decide_eq_false. intros Heq.
    apply List.find_some in F2 as [Hy _].
    rewrite map_app in Hnd.
    apply NoDup_app in Hnd as (_ & Hdisj & _).
    apply (Hdisj (path x)).
    + apply list_elem_of_In, in_map, Hin.
    + rewrite Heq. apply list_elem_of_In, in_map, Hy.
Qed.

Lemma rowsOfKind_app (k : RowKind) (sections : list ViewItem)
    (r1 r2 : list (ViewItem * ViewItem)) :
  rowsOfKind k sections (r1 ++ r2) =
  rowsOfKind k sections r1 ++ rowsOfKind k sections r2.
Proof. unfold rowsOfKind. rewrite List.filter_app, map_app. reflexivity. Qed.

Lemma rowsOfKind_section (k : RowKind) (sections : list ViewItem)
    (section : ViewItem) (trs : list ViewItem) :
  rowsOfKind k sections (map (pair section) trs) =
  keep k (spec_classify sections section) trs.
Proof.
  unfold rowsOfKind, keep.
  induction trs as [|tr trs IH]; simpl; [reflexivity|].
  destruct (RowKind_eqb _ k); simpl; rewrite IH; reflexivity.
Qed.

Lemma rowsOf_snoc (pre : list ViewItem) (x : ViewItem) :
  rowsOf (pre ++ [x]) =
  rowsOf pre ++ (if isSection x then map (pair x) (sectionRows x) else []).
Proof.
  unfold rowsOf. rewrite List.filter_app, flat_map_app. simpl.
  destruct (isSection x); simpl; rewrite ?app_nil_r; reflexivity.
Qed.

Lemma keep_ext (k : RowKind) (f g : ViewItem -> RowKind) (trs : list ViewItem) :
  (forall tr, f tr = g tr) -> keep k f trs = keep k g trs.
Proof.
  intros H. unfold keep. apply List.filter_ext. intros tr. rewrite H. reflexivity.
Qed.

Lemma foldHeadingColumns_app (r1 r2 : list ViewItem) (h : option JsNumber) :
  foldHeadingColumns (r1 ++ r2) h = foldHeadingColumns r2 (foldHeadingColumns r1 h).
Proof. unfold foldHeadingColumns. rewrite map_app, fold_left_app. reflexivity. Qed.

Lemma scanned_init (sections : list ViewItem) : scanned sections [] scanInit.
Proof. split; reflexivity. Qed.

Lemma kindWith_spec (pre suf : list ViewItem) (x tr : ViewItem) :
  NoDup (map path (pre ++ x :: suf)) ->
  kindWith (firstSection "thead" (pre ++ [x])) (firstSection "tfoot" (pre ++ [x]))
           x tr
  = spec_classify (pre ++ x :: suf) x tr.
Proof.
  intros Hnd. unfold kindWith, spec_classify.
  replace (pre ++ x :: suf) with ((pre ++ [x]) ++ suf) in *
    by (rewrite <- app_assoc; reflexivity).
  assert (Hin : In x (pre ++ [x])) by (apply in_or_app; right; left; reflexivity).
  rewrite !(isSaved_extend _ _ _ _ Hnd Hin).
  unfold View.isElement.
  destruct (isSaved (firstSection "thead" (pre ++ [x])) x); reflexivity.
Qed.

Lemma scanSection_step (pre suf : list ViewItem) (x : ViewItem) (st : ScanState) :
  NoDup (map path (pre ++ x :: suf)) ->
  scanned (pre ++ x :: suf) pre st ->
  scanned (pre ++ x :: suf) (pre ++ [x]) (scanSection st x).
Proof.
  intros Hnd [Hth Htf Hh Hb Hf Hhr Hfr Hhc].
  unfold scanSection.
  destruct (isSection x) eqn:Hsec; cbn [negb].
  - rewrite scanRow_fold.
    cbn [headingRows headingColumns footerRows headRows bodyRows footRows
         firstTheadElement firstTfootElement].
    rewrite Hth, Htf, !saveFirst_find.
    fold (sectionRows x).
    assert (Hk : forall k,
      keep k (kindWith (firstSection "thead" (pre ++ [x]))
                       (firstSection "tfoot" (pre ++ [x])) x) (sectionRows x)
      = rowsOfKind k (pre ++ x :: suf) (map (pair x) (sectionRows x))).
    { intros k. rewrite rowsOfKind_section. apply keep_ext.
      intros tr. apply kindWith_spec, Hnd. }
    rewrite !Hk.
    split; cbn [headingRows headingColumns footerRows headRows bodyRows footRows
                firstTheadElement firstTfootElement];
      rewrite ?rowsOf_snoc, ?Hsec, ?rowsOfKind_app, ?length_app,
              ?foldHeadingColumns_app;
      congruence.
  - assert (Hn : View.nameIs "thead" x = false /\ View.nameIs "tfoot" x = false).
    { unfold isSection in Hsec.
      apply orb_false_elim in Hsec as [Hsec Hfoot].
      apply orb_false_elim in Hsec as [_ Hhead]. split; assumption. }
    destruct Hn as [Hhead Hfoot].
    split; rewrite <- ?saveFirst_find, ?rowsOf_snoc, ?Hsec, ?app_nil_r;
      unfold saveFirst; rewrite ?Hhead, ?Hfoot; cbn [andb]; congruence.
Qed.

Lemma scanSection_fold (suf : list ViewItem) :
  forall (pre : list ViewItem) (st : ScanState),
    NoDup (map path (pre ++ suf)) ->
    scanned (pre ++ suf) pre st ->
    scanned (pre ++ suf) (pre ++ suf) (fold_left scanSection suf st).
Proof.
  induction suf as [|x suf IH]; intros pre st Hnd Hsc.
  - rewrite app_nil_r in *. exact Hsc.
  - simpl fold_left.
    replace (pre ++ x :: suf) with ((pre ++ [x]) ++ suf) in *
      by (rewrite <- app_assoc; reflexivity).
    apply IH; [exact Hnd|].
    rewrite <- app_assoc in *. cbn [app] in *.
    apply scanSection_step; assumption.
Qed.

(** The children of a node lie at pairwise different positions. *)
Lemma getChildren_NoDup (v : ViewItem) : NoDup (map path (View.getChildren v)).
Proof.
  unfold View.getChildren. apply NoDup_alt. intros i j p Hi Hj.
  rewrite list_lookup_fmap, list_lookup_imap in Hi, Hj.
  destruct (View.childNodes v !! i); [|discriminate].
  destruct (View.childNodes v !! j); [|discriminate].
  simpl in Hi, Hj. inversion Hi; inversion Hj; subst.
  match goal with H : _ ++ [_] = _ ++ [_] |- _ => apply app_inj_tail in H as [_ H] end.
  congruence.
Qed.

Theorem scanLoop_scanned (viewTable : ViewItem) :
  scanned (View.getChildren viewTable) (View.getChildren viewTable)
          (scanLoop viewTable).
Proof.
  unfold scanLoop.
  apply (scanSection_fold (View.getChildren viewTable) [] scanInit).
  - apply getChildren_NoDup.
  - apply scanned_init.
Qed.

(** ** Rows and their sections *)

Lemma in_getChildren (v x : ViewItem) :
  In x (View.getChildren v) <->
  exists i c, x = mkItem (path v ++ [i]) c /\ View.childNodes v !! i = Some c.
Proof.
  unfold View.getChildren. rewrite <- list_elem_of_In.
  apply elem_of_lookup_imap.
Qed.

Lemma in_rowsOf (sections : list ViewItem) (section tr : ViewItem) :
  In (section, tr) (rowsOf sections) <->
  In section sections /\ isSection section = true /\ In tr (sectionRows section).
Proof.
  unfold rowsOf. rewrite in_flat_map. split.
  - intros (s & Hs & Hin). apply List.filter_In in Hs as [Hs Hsec].
    apply in_map_iff in Hin as (r & Heq & Hr). inversion Heq; subst. auto.
  - intros (Hs & Hsec & Hr). exists section. split.
    + apply List.filter_In. auto.
    + apply in_map. exact Hr.
Qed.

Lemma in_sectionRows (section tr : ViewItem) :
  In tr (sectionRows section) <->
  In tr (View.getChildren section) /\ View.isElement "tr" tr = true.
Proof. unfold sectionRows. apply List.filter_In. Qed.

(** A row lies in one section only. *)
Lemma row_section_unique (viewTable s1 s2 tr : ViewItem) :
  In (s1, tr) (sourceRows viewTable) -> In (s2, tr) (sourceRows viewTable) ->
  s1 = s2.
Proof.
  unfold sourceRows. rewrite !in_rowsOf, !in_sectionRows, !in_getChildren.
  intros ((i1 & c1 & -> & H1) & _ & (j1 & d1 & E1 & _) & _)
         ((i2 & c2 & -> & H2) & _ & (j2 & d2 & E2 & _) & _).
  rewrite E1 in E2. simpl in E2. inversion E2 as [[Hp Hd]].
  apply app_inj_tail in Hp as [Hp _].
  apply app_inj_tail in Hp as [_ Hi]. subst i2.
  congruence.
Qed.

Lemma in_rowsOfKind (k : RowKind) (sections : list ViewItem)
    (rows : list (ViewItem * ViewItem)) (tr : ViewItem) :
  In tr (rowsOfKind k sections rows) <->
  exists section, In (section, tr) rows /\ spec_classify sections section tr = k.
Proof.
  unfold rowsOfKind. rewrite in_map_iff. split.
  - intros ([s r] & Heq & Hin). simpl in Heq. subst r.
    apply List.filter_In in Hin as [Hin Hk]. simpl in Hk.
    exists s. split; [exact Hin|].
    destruct (spec_classify sections s tr), k; try discriminate; reflexivity.
  - intros (s & Hin & Hk). exists (s, tr). split; [reflexivity|].
    apply List.filter_In. split; [exact Hin|]. simpl. rewrite Hk.
    destruct k; reflexivity.
Qed.

Lemma bucket_spec (viewTable : ViewItem) (k : RowKind) :
  bucket k (scanLoop viewTable) =
  rowsOfKind k (View.getChildren viewTable) (sourceRows viewTable).
Proof.
  destruct (scanLoop_scanned viewTable) as [_ _ Hh Hb Hf _ _ _].
  destruct k; assumption.
Qed.

(** The scanner puts every row into the bucket the specification's
    classification names, and into no other. *)
Lemma classified_spec (viewTable section tr : ViewItem) :
  In (section, tr) (sourceRows viewTable) ->
  classified viewTable tr (spec_classify (View.getChildren viewTable) section tr).
Proof.
  intros Hin k'. rewrite bucket_spec, in_rowsOfKind. split.
  - intros (s & Hs & Hk). rewrite (row_section_unique _ _ _ _ Hin Hs). congruence.
  - intros ->. exists section. auto.
Qed.

Lemma getChildren_path_inj (v a b : ViewItem) :
  In a (View.getChildren v) -> In b (View.getChildren v) ->
  path a = path b -> a = b.
Proof.
  rewrite !in_getChildren.
  intros (i & c & -> & Hi) (j & d & -> & Hj) Hp. simpl in Hp.
  apply app_inj_tail in Hp as [_ ->]. congruence.
Qed.

(** The saved first section of a kind has that kind. *)
Lemma isSaved_nameIs (n : string) (v section : ViewItem) :
  In section (View.getChildren v) ->
  isSaved (firstSection n (View.getChildren v)) section = true ->
  View.nameIs n section = true.
Proof.
  intros Hin. unfold isSaved, firstSection.
  destruct (List.find (View.nameIs n) (View.getChildren v)) as [f|] eqn:F;
    [|discriminate].
  apply List.find_some in F as [Hf Hn].
  unfold View.same. intros Hp. apply bool_decide_eq_true in Hp.
  rewrite (getChildren_path_inj v section f Hin Hf Hp). exact Hn.
Qed.

Lemma nameIs_functional (n1 n2 : string) (v : ViewItem) :
  View.nameIs n1 v = true -> View.nameIs n2 v = true -> n1 = n2.
Proof.
  unfold View.nameIs. destruct (View.name v) as [m|]; [|discriminate].
  intros H1 H2. apply String.eqb_eq in H1, H2. congruence.
Qed.

Lemma convertRows_app (conversionApi : ConversionApi) (table : NodeId)
    (r1 r2 : list ViewItem) (s : ConvState) :
  convertRows conversionApi table (r1 ++ r2) s =
  convertRows conversionApi table r2 (convertRows conversionApi table r1 s).
Proof. unfold convertRows. apply fold_left_app. Qed.

(** ** The claims about the scanner *)

(** C1: the rows the scanner returns are the rows classified Heading in
    source order, then those classified Body in source order, then those
    classified Footer in source order, wherever the sections stand in the
    source; the scanner classifies each row as the specification does, the
    counters are the numbers of heading and footer rows, and the builder
    converts the rows in this order.  For the table with sections
    tbody (2), thead (1), tbody (3) the result has headingRows = 1 and the
    rows in the order 1, 2, 3, and so has the table the builder makes when
    each row is converted into a row that records its text. *)
Theorem scanTable_canonical_row_order (viewTable : ViewItem) :
  let sections := View.getChildren viewTable in
  let rows := sourceRows viewTable in
  res_rows (scanTable viewTable) =
    rowsOfKind Heading sections rows ++ rowsOfKind Body sections rows
    ++ rowsOfKind Footer sections rows
  /\ (forall section tr,
        In (section, tr) rows ->
        classified viewTable tr (spec_classify sections section tr))
  /\ res_headingRows (scanTable viewTable)
     = length (rowsOfKind Heading sections rows)
  /\ res_footerRows (scanTable viewTable)
     = length (rowsOfKind Footer sections rows)
  /\ (forall conversionApi table s,
        convertRows conversionApi table (res_rows (scanTable viewTable)) s =
        convertRows conversionApi table (rowsOfKind Footer sections rows)
          (convertRows conversionApi table (rowsOfKind Body sections rows)
             (convertRows conversionApi table (rowsOfKind Heading sections rows)
                s)))
  /\ res_headingRows (scanTable Sample.unordered) = 1%nat
  /\ map Sample.rowText (res_rows (scanTable Sample.unordered)) = ["1"; "2"; "3"]
  /\ (let s' := snd (upcastTable Demo.rowsApi
                       (Demo.atRoot Sample.unordered) Demo.initial) in
      Writer.children 0 (model s') = [1%nat]
      /\ Demo.attribute (model s') 1 "headingRows" = Some (SNum (Num 1))
      /\ map (Demo.recordedText (model s')) (Writer.children 1 (model s'))
         = [Some (SStr "1"); Some (SStr "2"); Some (SStr "3")]).
Proof.
  intros sections rows.
  assert (Hrows : res_rows (scanTable viewTable) =
    rowsOfKind Heading sections rows ++ rowsOfKind Body sections rows
    ++ rowsOfKind Footer sections rows).
  { pose proof (bucket_spec viewTable Heading) as Bh.
    pose proof (bucket_spec viewTable Body) as Bb.
    pose proof (bucket_spec viewTable Footer) as Bf.
    cbn [bucket] in Bh, Bb, Bf.
    unfold scanTable. cbn [res_rows]. rewrite Bh, Bb, Bf. reflexivity. }
  destruct (scanLoop_scanned viewTable) as [_ _ Hh _ Hf Hhr Hfr _].
  split; [exact Hrows|].
  split; [intros section tr Hin; apply classified_spec, Hin|].
  split; [unfold scanTable; cbn [res_headingRows]; rewrite Hhr, Hh; reflexivity|].
  split; [unfold scanTable; cbn [res_footerRows]; rewrite Hfr, Hf; reflexivity|].
  split; [intros api table s; rewrite Hrows, !convertRows_app; reflexivity|].
  split; [reflexivity|].
  split; [reflexivity|].
  vm_compute. auto.
Qed.

(** [headingColumns] is the iterated update over the body rows. *)
Lemma scanTable_headingColumns_fold (viewTable : ViewItem) :
  res_headingColumns (scanTable viewTable) =
  Js.orZero (foldHeadingColumns (bucket Body (scanLoop viewTable)) None).
Proof.
  destruct (scanLoop_scanned viewTable) as [_ _ _ _ _ _ _ Hhc].
  unfold scanTable. cbn [res_headingColumns bucket]. rewrite Hhc. reflexivity.
Qed.

Lemma updateHeadingColumns_positive (a z : Z) :
  (0 < a)%Z ->
  updateHeadingColumns (Some (Num a)) (Num z) = Some (Num (Z.min a z)).
Proof.
  intros Ha. unfold updateHeadingColumns. cbn [Js.truthyOpt Js.truthy Js.lt].
  destruct (Z.eqb_spec a 0) as [->|_]; [lia|]. cbn [negb orb].
  destruct (Z.ltb_spec z a); f_equal; f_equal; lia.
Qed.

Lemma fold_updateHeadingColumns_positive (zs : list Z) :
  forall a, (0 < a)%Z -> Forall (fun z => (0 < z)%Z) zs ->
    fold_left updateHeadingColumns (map Num zs) (Some (Num a)) =
    Some (Num (minimum a zs)).
Proof.
  unfold minimum. induction zs as [|z zs IH]; intros a Ha Hall; [reflexivity|].
  apply Forall_cons in Hall as [Hz Hall]. cbn [map fold_left].
  rewrite (updateHeadingColumns_positive a z Ha). apply IH; [lia | exact Hall].
Qed.

(** As long as every body row starts with a heading cell, the scanner
    answers the minimum of the leading runs. *)
Lemma scanTable_headingColumns_positive_runs (viewTable : ViewItem)
    (z : Z) (zs : list Z) :
  map scanRowForHeadingColumns (bucket Body (scanLoop viewTable))
  = map Num (z :: zs) ->
  Forall (fun z => (0 < z)%Z) (z :: zs) ->
  res_headingColumns (scanTable viewTable) = Num (minimum z zs).
Proof.
  intros Hruns Hall. rewrite scanTable_headingColumns_fold.
  unfold foldHeadingColumns. rewrite Hruns.
  apply Forall_cons in Hall as [Hz Hall]. cbn [map fold_left].
  change (updateHeadingColumns None (Num z)) with (Some (Num z)).
  rewrite (fold_updateHeadingColumns_positive zs z Hz Hall).
  assert (Hm : (0 < minimum z zs)%Z).
  { clear Hruns. unfold minimum. revert z Hz.
    induction Hall as [|y ys Hy _ IH]; intros z Hz; [exact Hz|].
    cbn [fold_left]. apply IH. lia. }
  unfold Js.orZero, Js.truthy.
  destruct (Z.eqb_spec (minimum z zs) 0); [lia | reflexivity].
Qed.

(** C2, a defect of the code: the minimum over the body rows is lost when a
    row without leading heading cell comes before others.  For body rows
    with leading runs 0 and 2 the scanner answers 2, for runs 2 and 0 it
    answers 0; for runs 3, 1 and 2 it answers 1, and 0 without body rows. *)
Theorem scanTable_headingColumns_after_zero_run :
  map scanRowForHeadingColumns (bodyRows (scanLoop Sample.runs02))
    = [Num 0; Num 2]
  /\ res_headingColumns (scanTable Sample.runs02) = Num 2
  /\ map scanRowForHeadingColumns (bodyRows (scanLoop Sample.runs20))
     = [Num 2; Num 0]
  /\ res_headingColumns (scanTable Sample.runs20) = Num 0
  /\ map scanRowForHeadingColumns (bodyRows (scanLoop Sample.runs312))
     = [Num 3; Num 1; Num 2]
  /\ res_headingColumns (scanTable Sample.runs312) = Num 1
  /\ res_headingColumns (scanTable Demo.emptyTable) = Num 0.
Proof. repeat split; reflexivity. Qed.

(** C4: in a table with several head or foot sections, the rows of the first
    thead are classified Heading and the rows of the first tfoot Footer,
    while every row of a later thead or tfoot is classified Body, whatever
    its cells are.  Footer rows come from the first tfoot only, and Heading
    rows from the first thead or from a body section only. *)
Theorem later_thead_tfoot_rows_are_body (viewTable section tr : ViewItem) :
  In (section, tr) (sourceRows viewTable) ->
  let sections := View.getChildren viewTable in
  (isSaved (firstSection "thead" sections) section = true ->
   classified viewTable tr Heading)
  /\ (isSaved (firstSection "tfoot" sections) section = true ->
      classified viewTable tr Footer)
  /\ (View.nameIs "thead" section = true ->
      isSaved (firstSection "thead" sections) section = false ->
      classified viewTable tr Body)
  /\ (View.nameIs "tfoot" section = true ->
      isSaved (firstSection "tfoot" sections) section = false ->
      classified viewTable tr Body)
  /\ (classified viewTable tr Footer ->
      isSaved (firstSection "tfoot" sections) section = true)
  /\ (classified viewTable tr Heading ->
      isSaved (firstSection "thead" sections) section = true
      \/ View.nameIs "tbody" section = true).
Proof.
  intros Hin sections.
  pose proof (classified_spec viewTable section tr Hin) as Hc.
  fold sections in Hc.
  assert (Hsec : In section sections).
  { unfold sourceRows in Hin. apply in_rowsOf in Hin. tauto. }
  assert (Hthead : isSaved (firstSection "thead" sections) section = true ->
                   View.nameIs "thead" section = true)
    by apply (isSaved_nameIs "thead" viewTable section Hsec).
  assert (Htfoot : isSaved (firstSection "tfoot" sections) section = true ->
                   View.nameIs "tfoot" section = true)
    by apply (isSaved_nameIs "tfoot" viewTable section Hsec).
  assert (Hne : forall n1 n2, n1 <> n2 -> View.nameIs n1 section = true ->
                              View.nameIs n2 section = false).
  { intros n1 n2 Hn H1. destruct (View.nameIs n2 section) eqn:H2; [|reflexivity].
    destruct (Hn (nameIs_functional _ _ _ H1 H2)). }
  assert (Hkind : forall k, classified viewTable tr k ->
                            spec_classify sections section tr = k).
  { intros k Hk. symmetry. apply (Hc k), (Hk k). reflexivity. }
  unfold spec_classify in Hc, Hkind.
  split; [|split; [|split; [|split; [|split]]]].
  - intros H. rewrite H in Hc. exact Hc.
  - intros H. pose proof (Htfoot H) as Hn.
    destruct (isSaved (firstSection "thead" sections) section) eqn:E.
    + pose proof (nameIs_functional _ _ _ (Hthead eq_refl) Hn). discriminate.
    + rewrite (Hne "tfoot" "tbody") in Hc by (discriminate || exact Hn).
      rewrite H in Hc. exact Hc.
  - intros Hn H. rewrite H in Hc.
    rewrite (Hne "thead" "tbody") in Hc by (discriminate || exact Hn).
    destruct (isSaved (firstSection "tfoot" sections) section) eqn:E.
    + pose proof (nameIs_functional _ _ _ (Htfoot eq_refl) Hn). discriminate.
    + exact Hc.
  - intros Hn H. rewrite H in Hc.
    rewrite (Hne "tfoot" "tbody") in Hc by (discriminate || exact Hn).
    destruct (isSaved (firstSection "thead" sections) section) eqn:E.
    + pose proof (nameIs_functional _ _ _ (Hthead eq_refl) Hn). discriminate.
    + exact Hc.
  - intros Hk. apply Hkind in Hk.
    destruct (isSaved (firstSection "thead" sections) section); [discriminate|].
    destruct (View.nameIs "tbody" section && _ && _); [discriminate|].
    destruct (isSaved (firstSection "tfoot" sections) section);
      [reflexivity | discriminate].
  - intros Hk. apply Hkind in Hk.
    destruct (isSaved (firstSection "thead" sections) section); [left; reflexivity|].
    destruct (View.nameIs "tbody" section); [right; reflexivity|].
    cbn [andb] in Hk.
    destruct (isSaved (firstSection "tfoot" sections) section); discriminate.
Qed.

(** A row of a body section without cells (without children, or without th
    and td children) is never classified Heading; a row of a body section
    with at least one child, all of whose children are th elements, is
    classified Heading, wherever it stands among the rows of its section. *)
Theorem body_section_heading_row (viewTable section tr : ViewItem) :
  In (section, tr) (sourceRows viewTable) ->
  View.nameIs "tbody" section = true ->
  (View.getChildren tr = [] -> ~ In tr (bucket Heading (scanLoop viewTable)))
  /\ (cells tr = [] -> ~ In tr (bucket Heading (scanLoop viewTable)))
  /\ (View.getChildren tr <> [] ->
      Forall (fun cell => View.isElement "th" cell = true) (View.getChildren tr) ->
      classified viewTable tr Heading).
Proof.
  intros Hin Hbody.
  pose proof (classified_spec viewTable section tr Hin) as Hc.
  assert (Hsec : In section (View.getChildren viewTable)).
  { unfold sourceRows in Hin. apply in_rowsOf in Hin. tauto. }
  assert (Hthead : isSaved (firstSection "thead" (View.getChildren viewTable))
                           section = false).
  { destruct (isSaved _ section) eqn:E; [|reflexivity].
    pose proof (isSaved_nameIs "thead" viewTable section Hsec E) as Hn.
    pose proof (nameIs_functional _ _ _ Hn Hbody). discriminate. }
  unfold spec_classify in Hc. rewrite Hthead, Hbody in Hc. cbn [andb] in Hc.
  assert (Hno : cells tr = [] ->
                ~ In tr (bucket Heading (scanLoop viewTable))).
  { intros Hnil Hhead. unfold cells in Hnil.
    destruct (View.getChildren tr) as [|c cs]; cbn in Hnil, Hc.
    - destruct (isSaved (firstSection "tfoot" _) section);
        apply (Hc Heading) in Hhead; discriminate.
    - destruct (View.nameIs "th" c); [discriminate|]. cbn in Hc.
      destruct (isSaved (firstSection "tfoot" _) section);
        apply (Hc Heading) in Hhead; discriminate. }
  split; [|split].
  - intros Hnil. apply Hno. unfold cells. rewrite Hnil. reflexivity.
  - exact Hno.
  - intros Hne Hall.
    destruct (View.getChildren tr) as [|c cs] eqn:E; [congruence|].
    replace (forallb (View.nameIs "th") (c :: cs)) with true in Hc.
    + exact Hc.
    + symmetry. apply forallb_forall. intros x Hx.
      rewrite Forall_forall in Hall. apply Hall, list_elem_of_In, Hx.
Qed.

Lemma later_thead_tfoot_rows_are_body_witness :
  classified Sample.twoHeads (Sample.child 0 (Sample.child 0 Sample.twoHeads))
             Heading
  /\ classified Sample.twoHeads (Sample.child 0 (Sample.child 1 Sample.twoHeads))
                Body
  /\ classified Sample.twoHeads (Sample.child 0 (Sample.child 2 Sample.twoHeads))
                Footer
  /\ classified Sample.twoHeads (Sample.child 0 (Sample.child 3 Sample.twoHeads))
                Body.
Proof.
  split; [|split; [|split]].
  - pose proof (later_thead_tfoot_rows_are_body Sample.twoHeads
                  (Sample.child 0 Sample.twoHeads)
                  (Sample.child 0 (Sample.child 0 Sample.twoHeads))
                  ltac:(vm_compute; tauto)) as (H & _).
    apply H. reflexivity.
  - pose proof (later_thead_tfoot_rows_are_body Sample.twoHeads
                  (Sample.child 1 Sample.twoHeads)
                  (Sample.child 0 (Sample.child 1 Sample.twoHeads))
                  ltac:(vm_compute; tauto)) as (_ & _ & H & _).
    apply H; reflexivity.
  - pose proof (later_thead_tfoot_rows_are_body Sample.twoHeads
                  (Sample.child 2 Sample.twoHeads)
                  (Sample.child 0 (Sample.child 2 Sample.twoHeads))
                  ltac:(vm_compute; tauto)) as (_ & H & _).
    apply H. reflexivity.
  - pose proof (later_thead_tfoot_rows_are_body Sample.twoHeads
                  (Sample.child 3 Sample.twoHeads)
                  (Sample.child 0 (Sample.child 3 Sample.twoHeads))
                  ltac:(vm_compute; tauto)) as (_ & _ & _ & H & _).
    apply H; reflexivity.
Defined.

Lemma body_section_heading_row_witness :
  classified Sample.bodyHeading
             (Sample.child 1 (Sample.child 0 Sample.bodyHeading)) Heading
  /\ ~ In (Sample.child 2 (Sample.child 0 Sample.bodyHeading))
          (bucket Heading (scanLoop Sample.bodyHeading)).
Proof.
  split.
  - pose proof (body_section_heading_row Sample.bodyHeading
                  (Sample.child 0 Sample.bodyHeading)
                  (Sample.child 1 (Sample.child 0 Sample.bodyHeading))
                  ltac:(vm_compute; tauto) eq_refl) as (_ & _ & H).
    apply H; [discriminate | repeat constructor].
  - pose proof (body_section_heading_row Sample.bodyHeading
                  (Sample.child 0 Sample.bodyHeading)
                  (Sample.child 2 (Sample.child 0 Sample.bodyHeading))
                  ltac:(vm_compute; tauto) eq_refl) as (H & _).
    apply H. reflexivity.
Defined.

(** ** The writer *)

Lemma children_lookup (id : NodeId) (m : Model) (n : ModelNode) :
  nodes m !! id = Some n -> Writer.children id m = mchildren n.
Proof. unfold Writer.children. intros ->. reflexivity. Qed.

Lemma createElement_lookup (n : string) (attrs : gmap string Scalar) (m : Model)
    (x : NodeId) :
  nodes (snd (Writer.createElement n attrs m)) !! x =
  if decide (nextId m = x) then Some (mkNode n attrs []) else nodes m !! x.
Proof. simpl. apply lookup_insert. Qed.

Lemma insert_lookup (id : NodeId) (p : Position) (m : Model) (x : NodeId) :
  nodes (Writer.insert id p m) !! x =
  if decide (parent p = x)
  then Writer.setChildren (Writer.spliceAt (offset p) id) <$> nodes m !! x
  else nodes m !! x.
Proof.
  simpl. rewrite lookup_alter. destruct (decide (parent p = x)) as [->|]; reflexivity.
Qed.

Lemma insert_children_parent (id : NodeId) (p : Position) (m : Model) :
  is_Some (nodes m !! parent p) ->
  Writer.children (parent p) (Writer.insert id p m) =
  Writer.spliceAt (offset p) id (Writer.children (parent p) m).
Proof.
  intros [n Hn]. unfold Writer.children at 1.
  rewrite insert_lookup, decide_True by reflexivity.
  rewrite (children_lookup _ _ _ Hn), Hn. reflexivity.
Qed.

Lemma insert_children_other (id : NodeId) (p : Position) (m : Model) (x : NodeId) :
  parent p <> x ->
  Writer.children x (Writer.insert id p m) = Writer.children x m.
Proof.
  intros Hne. unfold Writer.children.
  rewrite insert_lookup, decide_False by exact Hne. reflexivity.
Qed.

Lemma detach_lookup (id : NodeId) (m : Model) (x : NodeId) :
  nodes (Writer.detach id m) !! x =
  Writer.setChildren (Writer.without id) <$> nodes m !! x.
Proof. simpl. apply lookup_fmap. Qed.

Lemma detach_children (id : NodeId) (m : Model) (x : NodeId) :
  Writer.children x (Writer.detach id m) = Writer.without id (Writer.children x m).
Proof.
  unfold Writer.children. rewrite detach_lookup.
  destruct (nodes m !! x); reflexivity.
Qed.

Lemma without_notin (id : NodeId) (l : list NodeId) :
  ~ In id l -> Writer.without id l = l.
Proof.
  intros Hn. unfold Writer.without. induction l as [|c l IH]; [reflexivity|].
  simpl. destruct (Nat.eqb_spec c id) as [->|Hne].
  - destruct Hn. left. reflexivity.
  - simpl. rewrite IH; [reflexivity|]. intros H. apply Hn. right. exact H.
Qed.

Lemma without_in (id x : NodeId) (l : list NodeId) :
  In x (Writer.without id l) <-> In x l /\ x <> id.
Proof.
  unfold Writer.without. rewrite List.filter_In, negb_true_iff, Nat.eqb_neq.
  reflexivity.
Qed.

Lemma spliceAt_end (id : NodeId) (l : list NodeId) :
  Writer.spliceAt (length l) id l = l ++ [id].
Proof.
  unfold Writer.spliceAt. rewrite take_ge, drop_ge by lia. reflexivity.
Qed.

(** Moving a node to the end of a parent it is not a child of. *)
Lemma move_to_end (id target : NodeId) (m : Model) :
  is_Some (nodes m !! target) ->
  ~ In id (Writer.children target m) ->
  let m' := Writer.move id (Writer.createPositionAtEnd target m) m in
  Writer.children target m' = Writer.children target m ++ [id]
  /\ (forall x, x <> target ->
        Writer.children x m' = Writer.without id (Writer.children x m))
  /\ (forall x, mname <$> nodes m' !! x = mname <$> nodes m !! x)
  /\ nextId m' = nextId m.
Proof.
  intros Hp Hn m'. subst m'. unfold Writer.move, Writer.createPositionAtEnd.
  cbn [parent offset].
  rewrite take_ge by lia. rewrite (without_notin _ _ Hn).
  split; [|split; [|split]].
  - rewrite (insert_children_parent id (mkPos target _)).
    + cbn [parent offset]. rewrite detach_children, (without_notin _ _ Hn).
      apply spliceAt_end.
    + cbn [parent]. rewrite detach_lookup.
      destruct Hp as [n ->]. eexists. reflexivity.
  - intros x Hx. rewrite insert_children_other by (cbn; congruence).
    apply detach_children.
  - intros x. rewrite insert_lookup, detach_lookup. cbn [parent].
    destruct (decide (target = x)) as [->|]; destruct (nodes m !! x) eqn:E;
      rewrite ?E; reflexivity.
  - reflexivity.
Qed.

Lemma moveAll_spec (paragraph : NodeId) (ms : list NodeId) :
  forall m : Model,
    is_Some (nodes m !! paragraph) ->
    NoDup ms ->
    (forall x, In x ms -> ~ In x (Writer.children paragraph m)) ->
    let m' := moveAll paragraph ms m in
    Writer.children paragraph m' = Writer.children paragraph m ++ ms
    /\ (forall x, x <> paragraph ->
          Writer.children x m' =
          fold_left (fun l a => Writer.without a l) ms (Writer.children x m))
    /\ (forall x, mname <$> nodes m' !! x = mname <$> nodes m !! x)
    /\ nextId m' = nextId m.
Proof.
  induction ms as [|a ms IH]; intros m Hp Hnd Hfresh m'; subst m'.
  - simpl. rewrite app_nil_r. auto.
  - simpl moveAll. cbn [moveAll fold_left].
    destruct (move_to_end a paragraph m Hp (Hfresh a (or_introl eq_refl)))
      as (Hc & Ho & Hname & Hnext).
    set (m1 := Writer.move a (Writer.createPositionAtEnd paragraph m) m) in *.
    apply NoDup_cons in Hnd as [Ha Hnd].
    destruct (IH m1) as (Hc' & Ho' & Hname' & Hnext').
    + specialize (Hname paragraph). destruct Hp as [n Hn]. rewrite Hn in Hname.
      destruct (nodes m1 !! paragraph); [eexists; reflexivity | discriminate].
    + exact Hnd.
    + intros x Hx. rewrite Hc. intros Hin. apply in_app_or in Hin as [Hin|Hin].
      * apply (Hfresh x (or_intror Hx) Hin).
      * destruct Hin as [->|[]]. apply Ha, list_elem_of_In, Hx.
    + unfold moveAll in *. split; [|split; [|split]].
      * rewrite Hc', Hc, <- app_assoc. reflexivity.
      * intros x Hx. rewrite (Ho' x Hx), (Ho x Hx). reflexivity.
      * intros x. rewrite Hname'. apply Hname.
      * congruence.
Qed.

Lemma fold_without_all (ms l : list NodeId) :
  (forall x, In x l -> In x ms) ->
  fold_left (fun l a => Writer.without a l) ms l = [].
Proof.
  revert l. induction ms as [|a ms IH]; intros l Hsub.
  - destruct l as [|x l]; [reflexivity|]. destruct (Hsub x (or_introl eq_refl)).
  - simpl. apply IH. intros x Hx. apply without_in in Hx as [Hx Hne].
    destruct (Hsub x Hx) as [->|Hin]; [congruence | exact Hin].
Qed.

Lemma fold_without_keep (p : NodeId) (ms l : list NodeId) :
  ~ In p ms ->
  fold_left (fun l a => Writer.without a l) ms (p :: l) =
  p :: fold_left (fun l a => Writer.without a l) ms l.
Proof.
  revert l. induction ms as [|a ms IH]; intros l Hn; [reflexivity|].
  simpl. destruct (Nat.eqb_spec p a) as [->|Hne].
  - destruct Hn. left. reflexivity.
  - simpl. apply IH. intros H. apply Hn. right. exact H.
Qed.

Lemma isElement_names (n : string) (m m' : Model) (x : NodeId) :
  mname <$> nodes m' !! x = mname <$> nodes m !! x ->
  Writer.isElement n m' x = Writer.isElement n m x.
Proof.
  unfold Writer.isElement.
  destruct (nodes m' !! x), (nodes m !! x); simpl; congruence.
Qed.

(** The node after a position of a well-formed model is a node of the
    store. *)
Lemma nodeAfter_wf (m : Model) (p : Position) (c : NodeId) :
  wf_model m -> Writer.nodeAfter p m = Some c ->
  is_Some (nodes m !! c) /\ (c < nextId m)%nat.
Proof.
  intros Hwf. unfold Writer.nodeAfter, Writer.children.
  destruct (nodes m !! parent p) as [n|] eqn:E; [|rewrite lookup_nil; discriminate].
  intros Hc. destruct (Hwf _ _ E) as (_ & Hall & _).
  rewrite Forall_forall in Hall.
  assert (Hs : is_Some (nodes m !! c))
    by (apply Hall, list_elem_of_lookup; eauto).
  split; [exact Hs|]. destruct Hs as [nc Hnc]. apply (Hwf _ _ Hnc).
Qed.

Lemma children_wf (m : Model) (id c : NodeId) :
  wf_model m -> In c (Writer.children id m) -> (c < nextId m)%nat.
Proof.
  intros Hwf. unfold Writer.children.
  destruct (nodes m !! id) as [n|] eqn:E; [|intros []].
  intros Hc. destruct (Hwf _ _ E) as (_ & Hall & _).
  rewrite Forall_forall in Hall.
  destruct (Hall c) as [nc Hnc]; [apply list_elem_of_In, Hc|].
  apply (Hwf _ _ Hnc).
Qed.

Lemma children_NoDup (m : Model) (id : NodeId) :
  wf_model m -> NoDup (Writer.children id m).
Proof.
  intros Hwf. unfold Writer.children.
  destruct (nodes m !! id) as [n|] eqn:E; [|constructor].
  apply (Hwf _ _ E).
Qed.

(** [writer.insertElement( name, position at ( parent, 0 ) )] on a node of
    the store. *)
Lemma insertElement_start (n : string) (target : NodeId) (m : Model) :
  is_Some (nodes m !! target) -> (target < nextId m)%nat ->
  let m' := Writer.insertElement n (Writer.createPositionAt target 0) m in
  Writer.children target m' = nextId m :: Writer.children target m
  /\ nodes m' !! nextId m = Some (mkNode n ∅ [])
  /\ (forall x, x <> target -> x <> nextId m -> nodes m' !! x = nodes m !! x)
  /\ (forall x, x <> nextId m -> mname <$> nodes m' !! x = mname <$> nodes m !! x)
  /\ nextId m' = S (nextId m).
Proof.
  intros [nt Ht] Hlt m'. subst m'.
  change (Writer.insertElement n (Writer.createPositionAt target 0) m)
    with (Writer.insert (nextId m) (mkPos target 0)
            (snd (Writer.createElement n ∅ m))).
  assert (Hne : nextId m <> target) by lia.
  split; [|split; [|split; [|split]]].
  - unfold Writer.children at 1. rewrite insert_lookup. cbn [parent offset].
    rewrite decide_True by reflexivity.
    rewrite createElement_lookup, decide_False by exact Hne.
    rewrite Ht. simpl. rewrite (children_lookup _ _ _ Ht). reflexivity.
  - rewrite insert_lookup. cbn [parent].
    rewrite decide_False by congruence.
    rewrite createElement_lookup, decide_True by reflexivity. reflexivity.
  - intros x Hx Hx'. rewrite insert_lookup. cbn [parent].
    rewrite decide_False by congruence.
    rewrite createElement_lookup, decide_False by congruence. reflexivity.
  - intros x Hx. rewrite insert_lookup. cbn [parent].
    destruct (decide (target = x)) as [<-|];
      rewrite createElement_lookup, decide_False by congruence;
      [rewrite Ht|]; reflexivity.
  - reflexivity.
Qed.

(** ** The claims about the cell repair *)

(** The markers-only branch of [ensureParagraphInTableCell]. *)
Lemma markers_moved (tableCell : NodeId) (m : Model) :
  wf_model m -> is_Some (nodes m !! tableCell) ->
  let paragraph := nextId m in
  let m2 :=
    Writer.insert paragraph (Writer.createPositionAt tableCell 0)
                  (snd (Writer.createElement "paragraph" ∅ m)) in
  let m' := moveAll paragraph (Writer.children tableCell m) m2 in
  Writer.children tableCell m' = [paragraph]
  /\ Writer.isElement "paragraph" m' paragraph = true
  /\ Writer.children paragraph m' = Writer.children tableCell m
  /\ (forall x, x <> paragraph ->
        mname <$> nodes m' !! x = mname <$> nodes m !! x).
Proof.
  intros Hwf Hcell paragraph m2 m'.
  assert (Hlt : (tableCell < nextId m)%nat)
    by (destruct Hcell as [n Hn]; apply (Hwf _ _ Hn)).
  destruct (insertElement_start "paragraph" tableCell m Hcell Hlt)
    as (Hc2 & Hp2 & _ & Hn2 & _).
  change (Writer.insertElement "paragraph" (Writer.createPositionAt tableCell 0) m)
    with m2 in *.
  fold paragraph in Hc2, Hp2, Hn2.
  assert (Hpc : Writer.children paragraph m2 = [])
    by (rewrite (children_lookup _ _ _ Hp2); reflexivity).
  assert (Hfresh : ~ In paragraph (Writer.children tableCell m)).
  { intros Hin. pose proof (children_wf _ _ _ Hwf Hin). unfold paragraph in *. lia. }
  destruct (moveAll_spec paragraph (Writer.children tableCell m) m2)
    as (Hc & Ho & Hname & _).
  - rewrite Hp2. eexists. reflexivity.
  - apply children_NoDup, Hwf.
  - intros x _. rewrite Hpc. intros [].
  - fold m' in Hc, Ho, Hname. split; [|split; [|split]].
    + rewrite Ho by (unfold paragraph; lia). rewrite Hc2.
      rewrite (fold_without_keep _ _ _ Hfresh), fold_without_all; auto.
    + rewrite (isElement_names _ m2 m' paragraph (Hname paragraph)).
      unfold Writer.isElement. rewrite Hp2. reflexivity.
    + rewrite Hc, Hpc. reflexivity.
    + intros x Hx. rewrite Hname. apply Hn2, Hx.
Qed.

(** C9: for a cell with a produced range, when the view cell is empty the
    handler inserts exactly one empty paragraph at the start of the model
    cell and changes nothing else; otherwise, when every child of the model
    cell is a marker, the cell is left with a paragraph as its only child,
    which holds those markers in their order. *)
Theorem ensureParagraphInTableCell_repairs (data : Data) (m : Model)
    (range : Range) (tableCell : NodeId) :
  wf_model m ->
  modelRange data = Some range ->
  Writer.nodeAfter (start range) m = Some tableCell ->
  exists m', ensureParagraphInTableCell data m = Some m'
    /\ (View.isEmpty (viewItem data) = true ->
        Writer.children tableCell m' = nextId m :: Writer.children tableCell m
        /\ nodes m' !! nextId m = Some (mkNode "paragraph" ∅ [])
        /\ (forall x, x <> tableCell -> x <> nextId m ->
              nodes m' !! x = nodes m !! x)
        /\ nextId m' = S (nextId m))
    /\ (View.isEmpty (viewItem data) = false ->
        Forall (fun c => Writer.isElement "$marker" m c = true)
               (Writer.children tableCell m) ->
        Writer.children tableCell m' = [nextId m]
        /\ Writer.isElement "paragraph" m' (nextId m) = true
        /\ Writer.children (nextId m) m' = Writer.children tableCell m
        /\ Forall (fun c => Writer.isElement "$marker" m' c = true)
                  (Writer.children (nextId m) m')).
Proof.
  intros Hwf Hr Hcell.
  destruct (nodeAfter_wf _ _ _ Hwf Hcell) as [Hsome Hlt].
  unfold ensureParagraphInTableCell. rewrite Hr, Hcell.
  destruct (View.isEmpty (viewItem data)) eqn:He.
  - eexists. split; [reflexivity|]. split; [|discriminate].
    intros _.
    destruct (insertElement_start "paragraph" tableCell m Hsome Hlt)
      as (Hc & Hp & Ho & _ & Hn).
    auto.
  - destruct (forallb (Writer.isElement "$marker" m) (Writer.children tableCell m))
      eqn:Hall.
    + cbn [Writer.createElement].
      eexists. split; [reflexivity|]. split; [discriminate|].
      intros _ Hmarkers.
      destruct (markers_moved tableCell m Hwf Hsome) as (Hc & Hp & Hpc & Hname).
      split; [exact Hc|]. split; [exact Hp|]. split; [exact Hpc|].
      unfold Writer.createElement in Hpc. cbn [snd] in Hpc. rewrite Hpc.
      rewrite Forall_forall in Hmarkers |- *. intros c Hc'.
      rewrite (isElement_names "$marker" m _ c); [apply Hmarkers, Hc'|].
      apply Hname.
      apply list_elem_of_In, (children_wf _ _ _ Hwf) in Hc'. lia.
    + eexists. split; [reflexivity|]. split; [discriminate|].
      intros _ Hmarkers. exfalso.
      rewrite Forall_forall in Hmarkers.
      assert (Ht : forallb (Writer.isElement "$marker" m)
                           (Writer.children tableCell m) = true).
      { apply forallb_forall. intros c Hc. apply Hmarkers, list_elem_of_In, Hc. }
      congruence.
Qed.

(** C10: for a view cell that is not empty while the model cell has no
    child, the markers test holds vacuously and the handler inserts an
    empty paragraph into the cell; hence, whenever a range was produced, the
    model cell has at least one child after the handler. *)
Theorem ensureParagraphInTableCell_cell_not_empty (data : Data) (m : Model)
    (range : Range) (tableCell : NodeId) :
  wf_model m ->
  modelRange data = Some range ->
  Writer.nodeAfter (start range) m = Some tableCell ->
  exists m', ensureParagraphInTableCell data m = Some m'
    /\ (View.isEmpty (viewItem data) = false ->
        Writer.children tableCell m = [] ->
        forallb (Writer.isElement "$marker" m) (Writer.children tableCell m) = true
        /\ Writer.children tableCell m' = [nextId m]
        /\ nodes m' !! nextId m = Some (mkNode "paragraph" ∅ []))
    /\ Writer.children tableCell m' <> []
    /\ Writer.isEmpty tableCell m' = false.
Proof.
  intros Hwf Hr Hcell.
  destruct (nodeAfter_wf _ _ _ Hwf Hcell) as [Hsome Hlt].
  destruct (insertElement_start "paragraph" tableCell m Hsome Hlt)
    as (Hc & Hp & _ & _ & _).
  assert (Hne : forall m', Writer.children tableCell m' <> [] ->
                           Writer.isEmpty tableCell m' = false).
  { intros m' H. unfold Writer.isEmpty.
    destruct (Writer.children tableCell m'); congruence. }
  unfold ensureParagraphInTableCell. rewrite Hr, Hcell.
  destruct (View.isEmpty (viewItem data)) eqn:He.
  - eexists. split; [reflexivity|]. split; [discriminate|].
    assert (H : Writer.children tableCell
                  (Writer.insertElement "paragraph"
                     (Writer.createPositionAt tableCell 0) m) <> [])
      by (rewrite Hc; discriminate).
    auto.
  - destruct (forallb (Writer.isElement "$marker" m) (Writer.children tableCell m))
      eqn:Hall.
    + cbn [Writer.createElement].
      destruct (markers_moved tableCell m Hwf Hsome) as (Hc' & _ & _ & _).
      unfold Writer.createElement in Hc'. cbn [snd] in Hc'.
      eexists. split; [reflexivity|]. split.
      * intros _ Hnil. split; [reflexivity|].
        rewrite Hnil. cbn [moveAll fold_left].
        rewrite Hnil in Hc. split; [exact Hc | exact Hp].
      * assert (H : Writer.children tableCell
                      (moveAll (nextId m) (Writer.children tableCell m)
                         (Writer.insert (nextId m)
                            (Writer.createPositionAt tableCell 0)
                            (mkModel
                               (<[nextId m := mkNode "paragraph" ∅ []]> (nodes m))
                               (S (nextId m))))) <> [])
          by (rewrite Hc'; discriminate).
        auto.
    + eexists. split; [reflexivity|]. split.
      * intros _ Hnil. rewrite Hnil in Hall. discriminate.
      * assert (H : Writer.children tableCell m <> [])
          by (intros Hnil; rewrite Hnil in Hall; discriminate).
        auto.
Qed.

Lemma wf_modelb_sound (m : Model) : wf_modelb m = true -> wf_model m.
Proof.
  unfold wf_modelb, wf_model. rewrite forallb_forall. intros H id n Hn.
  specialize (H (id, n)). cbn [fst snd] in H.
  assert (Hin : In (id, n) (map_to_list (nodes m)))
    by (apply list_elem_of_In, elem_of_map_to_list, Hn).
  apply H in Hin.
  apply andb_prop in Hin as [Hin Hnd]. apply andb_prop in Hin as [Hlt Hall].
  split; [apply Nat.ltb_lt, Hlt|]. split.
  - rewrite forallb_forall in Hall. apply Forall_forall. intros c Hc.
    apply list_elem_of_In, Hall in Hc. apply bool_decide_eq_true in Hc. exact Hc.
  - apply bool_decide_eq_true in Hnd. exact Hnd.
Qed.

Lemma ensureParagraphInTableCell_repairs_witness :
  (exists m',
      ensureParagraphInTableCell Demo.filledCellData Demo.markerCell
      = Some m'
      /\ Writer.children 1 m' = [4%nat]
      /\ Writer.children 4 m' = [2%nat; 3%nat])
  /\ (exists m',
         ensureParagraphInTableCell Demo.emptyCellData Demo.bareCell
         = Some m'
         /\ Writer.children 1 m' = [2%nat]
         /\ nodes m' !! 2%nat = Some (mkNode "paragraph" ∅ [])).
Proof.
  split.
  - destruct (ensureParagraphInTableCell_repairs
                Demo.filledCellData Demo.markerCell Demo.cellRange 1%nat
                (wf_modelb_sound Demo.markerCell eq_refl) eq_refl eq_refl)
      as (m' & Hm & _ & H).
    exists m'. split; [exact Hm|].
    destruct H as (H1 & _ & H2 & _);
      [reflexivity | repeat (constructor; [reflexivity|]); constructor |].
    split; [exact H1 | exact H2].
  - destruct (ensureParagraphInTableCell_repairs
                Demo.emptyCellData Demo.bareCell Demo.cellRange 1%nat
                (wf_modelb_sound Demo.bareCell eq_refl) eq_refl eq_refl)
      as (m' & Hm & H & _).
    exists m'. split; [exact Hm|].
    destruct H as (H1 & H2 & _); [reflexivity|].
    split; [exact H1 | exact H2].
Defined.

Lemma ensureParagraphInTableCell_cell_not_empty_witness :
  exists m',
    ensureParagraphInTableCell Demo.filledCellData Demo.bareCell = Some m'
    /\ Writer.children 1 m' = [2%nat]
    /\ nodes m' !! 2%nat = Some (mkNode "paragraph" ∅ [])
    /\ Writer.isEmpty 1 m' = false.
Proof.
  destruct (ensureParagraphInTableCell_cell_not_empty
              Demo.filledCellData Demo.bareCell Demo.cellRange 1%nat
              (wf_modelb_sound Demo.bareCell eq_refl) eq_refl eq_refl)
    as (m' & Hm & H & _ & He).
  exists m'. split; [exact Hm|].
  destruct H as (_ & H1 & H2); [reflexivity | reflexivity |].
  split; [exact H1|]. split; [exact H2 | exact He].
Defined.

(** ** The claims about the converters *)

(** A new element inserted at the end of a node of the store. *)
Lemma createElement_insert_end (n : string) (attrs : gmap string Scalar)
    (p : Position) (m : Model) :
  is_Some (nodes m !! parent p) -> (parent p < nextId m)%nat ->
  offset p = length (Writer.children (parent p) m) ->
  let m' := Writer.insert (nextId m) p (snd (Writer.createElement n attrs m)) in
  Writer.children (parent p) m' = Writer.children (parent p) m ++ [nextId m]
  /\ nodes m' !! nextId m = Some (mkNode n attrs [])
  /\ (forall x, x <> parent p -> x <> nextId m -> nodes m' !! x = nodes m !! x)
  /\ (forall x, x <> nextId m -> mname <$> nodes m' !! x = mname <$> nodes m !! x)
  /\ nextId m' = S (nextId m).
Proof.
  intros [nt Ht] Hlt Hoff m'.
  assert (Hne : nextId m <> parent p) by lia.
  set (m1 := snd (Writer.createElement n attrs m)) in *.
  assert (Ht1 : nodes m1 !! parent p = Some nt).
  { unfold m1. rewrite createElement_lookup, decide_False by exact Hne. exact Ht. }
  assert (Hc1 : Writer.children (parent p) m1 = Writer.children (parent p) m).
  { rewrite (children_lookup _ _ _ Ht1), (children_lookup _ _ _ Ht). reflexivity. }
  subst m'.
  split; [|split; [|split; [|split]]].
  - rewrite insert_children_parent by eauto.
    rewrite Hc1, Hoff. apply spliceAt_end.
  - rewrite insert_lookup. rewrite decide_False by congruence.
    unfold m1. rewrite createElement_lookup, decide_True by reflexivity.
    reflexivity.
  - intros x Hx Hx'. rewrite insert_lookup.
    rewrite decide_False by congruence.
    unfold m1. rewrite createElement_lookup, decide_False by congruence.
    reflexivity.
  - intros x Hx. rewrite insert_lookup.
    destruct (decide (parent p = x)) as [<-|];
      unfold m1; rewrite createElement_lookup, decide_False by congruence;
      [rewrite Ht|]; reflexivity.
  - reflexivity.
Qed.

Lemma fillEmptyTable_unfold (table : NodeId) (m : Model) :
  Writer.isEmpty table m = true ->
  fillEmptyTable table m =
  let m1 := snd (Writer.createElement "tableRow" ∅ m) in
  let m2 := Writer.insert (nextId m) (Writer.createPositionAtEnd table m1) m1 in
  Writer.insert (nextId m2) (Writer.createPositionAtEnd (nextId m) m2)
                (snd (Writer.createElement "tableCell" ∅ m2)).
Proof. intros He. unfold fillEmptyTable. rewrite He. reflexivity. Qed.

(** [fillEmptyTable] on an empty table of the store. *)
Lemma fillEmptyTable_empty (table : NodeId) (m : Model) :
  is_Some (nodes m !! table) -> (table < nextId m)%nat ->
  Writer.isEmpty table m = true ->
  let m' := fillEmptyTable table m in
  Writer.children table m' = [nextId m]
  /\ nodes m' !! nextId m = Some (mkNode "tableRow" ∅ [S (nextId m)])
  /\ nodes m' !! S (nextId m) = Some (mkNode "tableCell" ∅ [])
  /\ (forall x, x <> table -> (x < nextId m)%nat -> nodes m' !! x = nodes m !! x).
Proof.
  intros Ht Hlt He m'. subst m'. rewrite (fillEmptyTable_unfold _ _ He).
  assert (Hnil : Writer.children table m = []).
  { unfold Writer.isEmpty in He. destruct (Writer.children table m);
      [reflexivity | discriminate]. }
  set (m1 := snd (Writer.createElement "tableRow" ∅ m)).
  assert (Hc1 : Writer.children table m1 = []).
  { unfold Writer.children, m1.
    rewrite createElement_lookup, decide_False by lia.
    fold (Writer.children table m). exact Hnil. }
  destruct (createElement_insert_end "tableRow" ∅
              (Writer.createPositionAtEnd table m1) m)
    as (Hc & Hrow & Ho & _ & Hn).
  { exact Ht. } { exact Hlt. }
  { cbn [Writer.createPositionAtEnd parent offset]. fold m1.
    rewrite Hc1, Hnil. reflexivity. }
  fold m1 in Hc, Hrow, Ho, Hn.
  cbn [Writer.createPositionAtEnd parent] in Hc, Hrow, Ho, Hn.
  cbv zeta.
  set (m2 := Writer.insert (nextId m) (Writer.createPositionAtEnd table m1) m1)
    in *.
  assert (Hc2 : Writer.children (nextId m) m2 = [])
    by (rewrite (children_lookup _ _ _ Hrow); reflexivity).
  destruct (createElement_insert_end "tableCell" ∅
              (Writer.createPositionAtEnd (nextId m) m2) m2)
    as (Hc' & Hcell & Ho' & _ & _).
  { cbn [Writer.createPositionAtEnd parent]. rewrite Hrow. eexists. reflexivity. }
  { cbn [Writer.createPositionAtEnd parent]. rewrite Hn. lia. }
  { reflexivity. }
  cbn [Writer.createPositionAtEnd parent] in Hc', Hcell, Ho'.
  set (m3 := Writer.insert (nextId m2) _ _) in *.
  rewrite Hn in Hcell, Ho'. rewrite Hc2 in Hc'. cbn [app] in Hc'. rewrite Hn in Hc'.
  split; [|split; [|split]].
  - unfold Writer.children. rewrite Ho' by lia.
    fold (Writer.children table m2). rewrite Hc, Hnil. reflexivity.
  - assert (Hname : nodes m3 !! nextId m =
                    Writer.setChildren
                      (Writer.spliceAt (length (Writer.children (nextId m) m2))
                                       (nextId m2))
                      <$> Some (mkNode "tableRow" ∅ [])).
    { unfold m3. rewrite insert_lookup.
      cbn [Writer.createPositionAtEnd parent offset].
      rewrite decide_True by reflexivity.
      rewrite createElement_lookup, decide_False by lia.
      rewrite Hrow. reflexivity. }
    rewrite Hname, Hc2, Hn. reflexivity.
  - exact Hcell.
  - intros x Hx Hx'. rewrite Ho' by lia. apply Ho; [exact Hx | lia].
Qed.

(** C3: when the conversion of the rows and of the other children of a view
    table left the model table without children, the builder inserts one
    row that holds one empty cell; the model table has a child afterwards
    in every case. *)
Theorem upcastTable_fills_empty_table (conversionApi : ConversionApi)
    (data : Data) (s : ConvState) :
  let viewTable := viewItem data in
  let table := nextId (model s) in
  let m1 :=
    snd (Writer.createElement "table" (tableAttributes (scanTable viewTable))
                              (model s)) in
  let m2 := snd (safeInsert conversionApi table (modelCursor data) m1) in
  let s5 :=
    upcastTableContent conversionApi table viewTable
      (res_rows (scanTable viewTable)) (upcastTableConsumed viewTable s m2) in
  let row := nextId (model s5) in
  let tableCell := S row in
  let s' := snd (upcastTable conversionApi data s) in
  Consumable.test (consumable s) viewTable [AName] = true ->
  fst (safeInsert conversionApi table (modelCursor data) m1) = true ->
  wf_model (model s5) ->
  is_Some (nodes (model s5) !! table) ->
  (Writer.isEmpty table (model s5) = true ->
   Writer.children table (model s') = [row]
   /\ nodes (model s') !! row = Some (mkNode "tableRow" ∅ [tableCell])
   /\ nodes (model s') !! tableCell = Some (mkNode "tableCell" ∅ []))
  /\ Writer.isEmpty table (model s') = false.
Proof.
  intros viewTable table m1 m2 s5 row tableCell s' Htest Hins Hwf Ht.
  assert (Hlt : (table < nextId (model s5))%nat)
    by (destruct Ht as [n Hn]; apply (Hwf _ _ Hn)).
  assert (Hs' : model s' = fillEmptyTable table (model s5)).
  { subst s'. unfold upcastTable. fold viewTable. rewrite Htest. cbn [negb].
    cbn [Writer.createElement]. fold table.
    change (mkModel _ _) with m1.
    destruct (safeInsert conversionApi table (modelCursor data) m1)
      as [inserted m2'] eqn:E.
    cbn [fst snd] in Hins, m2. subst inserted m2. cbn [negb snd model].
    reflexivity. }
  rewrite Hs'.
  destruct (Writer.isEmpty table (model s5)) eqn:He.
  - destruct (fillEmptyTable_empty table (model s5) Ht Hlt He)
      as (Hc & Hrow & Hcell & _).
    split; [auto|].
    unfold Writer.isEmpty at 1. rewrite Hc. reflexivity.
  - split; [discriminate|].
    unfold fillEmptyTable. rewrite He. exact He.
Qed.

Lemma upcastTable_fills_empty_table_witness :
  let s' := snd (upcastTable Demo.emptyApi
                   (Demo.atRoot Demo.emptyTable) Demo.initial) in
  Writer.children 1 (model s') = [2%nat]
  /\ nodes (model s') !! 2%nat = Some (mkNode "tableRow" ∅ [3%nat])
  /\ nodes (model s') !! 3%nat = Some (mkNode "tableCell" ∅ [])
  /\ Writer.isEmpty 1 (model s') = false.
Proof.
  pose proof (upcastTable_fills_empty_table Demo.emptyApi
                (Demo.atRoot Demo.emptyTable) Demo.initial) as H.
  cbv zeta in H.
  destruct H as [H He];
    [ reflexivity | reflexivity
    | apply wf_modelb_sound; vm_compute; reflexivity
    | apply (bool_decide_unpack _); vm_compute; exact I
    | ].
  destruct (H eq_refl) as (H1 & H2 & H3).
  split; [exact H1|]. split; [exact H2|]. split; [exact H3 | exact He].
Defined.

(** C7: when the safe insert of the new table is rejected, the builder
    returns with the consumable untouched and the data unchanged (no range
    reported), so the view table can still be claimed; when it succeeds, the
    name of the view table is consumed in the state the conversion of the
    content starts from. *)
Theorem upcastTable_rejected_insert (conversionApi : ConversionApi)
    (data : Data) (s : ConvState) :
  let viewTable := viewItem data in
  let table := nextId (model s) in
  let m1 :=
    snd (Writer.createElement "table" (tableAttributes (scanTable viewTable))
                              (model s)) in
  let inserted := safeInsert conversionApi table (modelCursor data) m1 in
  Consumable.test (consumable s) viewTable [AName] = true ->
  (fst inserted = false ->
   upcastTable conversionApi data s = (data, mkState (consumable s) (snd inserted))
   /\ modelRange (fst (upcastTable conversionApi data s)) = modelRange data
   /\ Consumable.test (consumable (snd (upcastTable conversionApi data s)))
                      viewTable [AName] = true)
  /\ (fst inserted = true ->
      let s3 := upcastTableConsumed viewTable s (snd inserted) in
      let s5 :=
        upcastTableContent conversionApi table viewTable
                           (res_rows (scanTable viewTable)) s3 in
      Consumable.test (consumable s3) viewTable [AName] = false
      /\ snd (upcastTable conversionApi data s)
         = mkState (consumable s5) (fillEmptyTable table (model s5))).
Proof.
  intros viewTable table m1 inserted Htest.
  assert (Heq : upcastTable conversionApi data s =
    if negb (fst inserted) then (data, mkState (consumable s) (snd inserted))
    else
      let s3 := upcastTableConsumed viewTable s (snd inserted) in
      let s5 := upcastTableContent conversionApi table viewTable
                  (res_rows (scanTable viewTable)) s3 in
      let s6 := mkState (consumable s5) (fillEmptyTable table (model s5)) in
      (updateConversionResult conversionApi table data s6, s6)).
  { unfold upcastTable. fold viewTable. rewrite Htest. cbn [negb].
    cbn [Writer.createElement]. fold table. change (mkModel _ _) with m1.
    fold inserted. destruct inserted as [b m2]. reflexivity. }
  split.
  - intros Hf. rewrite Heq, Hf. cbn [negb fst snd consumable modelRange]. auto.
  - intros Ht. rewrite Heq, Ht. cbn [negb snd]. split; [|reflexivity].
    unfold upcastTableConsumed, Consumable.test, Consumable.consume,
      Consumable.keys.
    cbn [consumable forallb map andb].
    rewrite andb_true_r. apply bool_decide_eq_false.
    intros Hn. apply Hn. set_solver.
Qed.

Lemma upcastTable_rejected_insert_witness :
  upcastTable Demo.rejectingApi (Demo.atRoot Sample.unordered)
              Demo.initial
  = (Demo.atRoot Sample.unordered,
     mkState ∅ (snd (Writer.createElement "table"
                       (tableAttributes (scanTable Sample.unordered))
                       Demo.rootModel)))
  /\ Consumable.test
       (consumable (snd (upcastTable Demo.rejectingApi
                           (Demo.atRoot Sample.unordered) Demo.initial)))
       Sample.unordered [AName] = true.
Proof.
  destruct (upcastTable_rejected_insert Demo.rejectingApi
              (Demo.atRoot Sample.unordered) Demo.initial eq_refl)
    as [H _].
  destruct (H eq_refl) as (H1 & _ & H2).
  split; [exact H1 | exact H2].
Defined.

Lemma test_figureAspects (c : gset (list nat * Aspect)) (v : ViewItem) :
  Consumable.test c v figureAspects = true <->
  ((path v, AName) ∉ c) /\ ((path v, AClass "table") ∉ c).
Proof.
  unfold Consumable.test, figureAspects. cbn [forallb].
  rewrite andb_true_r, andb_true_iff, !bool_decide_eq_true. reflexivity.
Qed.

Lemma keys_figureAspects (v : ViewItem) (k : list nat * Aspect) :
  (k ∈ Consumable.keys v figureAspects) <->
  k = (path v, AName) \/ k = (path v, AClass "table").
Proof.
  unfold Consumable.keys, figureAspects. cbn [map list_to_set].
  rewrite elem_of_union, elem_of_union, !elem_of_singleton.
  split; [intros [H|[H|H]]; auto | intros [H|H]; auto].
  apply not_elem_of_empty in H. destruct H.
Qed.

(** C6, as amended: when the figure handler has consumed the name and the
    class [table] of the figure and the conversion of the inner table
    returned a range that holds no node at all, the handler reverts exactly
    that consumption and returns the data unchanged: the figure can be
    claimed again, and where the conversion of the table did not touch the
    records of the figure, they are what they were before the handler ran. *)
Theorem upcastTableFigure_reverts (conversionApi : ConversionApi)
    (data : Data) (s s2 : ConvState) (viewTable : ViewItem)
    (conversionResult : ConversionResult) (range : Range) :
  let figure := viewItem data in
  let s1 :=
    mkState (Consumable.consume (consumable s) figure figureAspects) (model s) in
  Consumable.test (consumable s) figure figureAspects = true ->
  getViewTableFromFigure figure = Some viewTable ->
  Consumable.test (consumable s) viewTable [AName] = true ->
  convertItem conversionApi viewTable (modelCursor data) s1
  = (conversionResult, s2) ->
  cr_modelRange conversionResult = Some range ->
  first (getItems conversionApi range (model s2)) = None ->
  exists s',
    upcastTableFigure conversionApi data s = Some (data, s')
    /\ consumable s' = Consumable.revert (consumable s2) figure figureAspects
    /\ model s' = model s2
    /\ Consumable.test (consumable s') figure figureAspects = true
    /\ ((forall a, ((path figure, a) ∈ consumable s2)
                   <-> ((path figure, a) ∈ consumable s1)) ->
        forall a, ((path figure, a) ∈ consumable s')
                  <-> ((path figure, a) ∈ consumable s)).
Proof.
  intros figure s1 Hfig Htable Htest Hconv Hrange Hfirst.
  eexists. split.
  - unfold upcastTableFigure. fold figure. rewrite Hfig, Htable, Htest.
    cbn [negb]. fold s1. rewrite Hconv, Hrange, Hfirst. reflexivity.
  - cbn [consumable model].
    split; [reflexivity|]. split; [reflexivity|].
    apply test_figureAspects in Hfig as [Hname Hclass]. split.
    + apply test_figureAspects. unfold Consumable.revert.
      split; intros Hin; apply elem_of_difference in Hin as [_ Hn];
        apply Hn, keys_figureAspects; auto.
    + intros Hframe a. unfold Consumable.revert.
      rewrite elem_of_difference, Hframe. unfold s1, Consumable.consume.
      cbn [consumable]. rewrite elem_of_union, keys_figureAspects.
      split.
      * intros [[Hin|Hk] Hn]; [exact Hin|]. destruct (Hn Hk).
      * intros Hin. split; [left; exact Hin|].
        intros [Hk|Hk]; injection Hk as ->; auto.
Qed.

Lemma upcastTableFigure_reverts_witness :
  upcastTableFigure Demo.emptyApi (Demo.atRoot Demo.figure)
                    Demo.initial
  = Some (Demo.atRoot Demo.figure,
          mkState (Consumable.revert
                     (Consumable.consume ∅ Demo.figure figureAspects)
                     Demo.figure figureAspects)
                  Demo.rootModel)
  /\ Consumable.test
       (Consumable.revert (Consumable.consume ∅ Demo.figure figureAspects)
                          Demo.figure figureAspects)
       Demo.figure figureAspects = true.
Proof.
  destruct (upcastTableFigure_reverts Demo.emptyApi
              (Demo.atRoot Demo.figure) Demo.initial
              (mkState (Consumable.consume ∅ Demo.figure figureAspects)
                       Demo.rootModel)
              (Sample.child 0 Demo.figure)
              (mkResult (Some (mkRange (mkPos 0 0) (mkPos 0 0))) (mkPos 0 0))
              (mkRange (mkPos 0 0) (mkPos 0 0))
              eq_refl eq_refl eq_refl eq_refl eq_refl eq_refl)
    as (s' & Hrun & Hc & Hm & Ht & _).
  rewrite Hrun. destruct s' as [c m]. cbn [consumable model] in Hc, Hm, Ht.
  subst c m. split; [reflexivity | exact Ht].
Defined.

Lemma on_high_first (callback : Listener) (listeners : list (Priority * Listener)) :
  Forall (fun l => (rank (fst l) < rank High)%nat) listeners ->
  on High callback listeners = (High, callback) :: listeners.
Proof.
  intros H. destruct H as [|l rest Hl _]; [reflexivity|].
  simpl. apply Nat.ltb_lt in Hl. simpl in Hl. rewrite Hl. reflexivity.
Qed.

(** C8: the skip handler stops the event of a row exactly when the row is
    empty and the cursor stands at offset zero of its parent.  Registered
    with high priority before listeners of lower priority, it then keeps
    them from running, so that no range is produced for the row and nothing
    changes; for an empty row at offset 1 or more, and for a row that is not
    empty, the event is not stopped and the other listeners run as if the
    handler were absent. *)
Theorem skipEmptyTableRow_stops_iff (evt : EventInfo) (data : Data)
    (listeners : list (Priority * Listener)) (s : ConvState) :
  stopped evt = false ->
  Forall (fun l => (rank (fst l) < rank High)%nat) listeners ->
  (stopped (skipEmptyTableRow evt data) = true <->
   View.isEmpty (viewItem data) = true /\ offset (modelCursor data) = 0%nat)
  /\ (View.isEmpty (viewItem data) = true ->
      offset (modelCursor data) = 0%nat ->
      fire (registerSkipEmptyTableRow listeners) evt data s
      = Some (stop evt, data, s))
  /\ (View.isEmpty (viewItem data) = true ->
      (1 <= offset (modelCursor data))%nat ->
      stopped (skipEmptyTableRow evt data) = false
      /\ fire (registerSkipEmptyTableRow listeners) evt data s
         = fire listeners evt data s)
  /\ (View.isEmpty (viewItem data) = false ->
      stopped (skipEmptyTableRow evt data) = false
      /\ fire (registerSkipEmptyTableRow listeners) evt data s
         = fire listeners evt data s).
Proof.
  intros Hevt Hlow.
  assert (Hfire :
    fire (registerSkipEmptyTableRow listeners) evt data s =
    if stopped (skipEmptyTableRow evt data)
    then Some (skipEmptyTableRow evt data, data, s)
    else fire listeners (skipEmptyTableRow evt data) data s).
  { unfold registerSkipEmptyTableRow. rewrite (on_high_first _ _ Hlow).
    reflexivity. }
  assert (Hskip :
    skipEmptyTableRow evt data =
    if View.isEmpty (viewItem data) && (offset (modelCursor data) =? 0)%nat
    then stop evt else evt) by reflexivity.
  rewrite Hfire, Hskip. clear Hfire Hskip.
  destruct (View.isEmpty (viewItem data));
    destruct (Nat.eqb_spec (offset (modelCursor data)) 0) as [Ho|Ho];
    cbn [andb stop stopped]; rewrite ?Hevt.
  - split; [tauto|]. split; [reflexivity|]. split; [lia | discriminate].
  - split; [split; [discriminate | tauto]|].
    split; [contradiction|]. split; [auto | discriminate].
  - split; [split; [discriminate | intros [? _]; discriminate]|].
    split; [discriminate|]. split; [discriminate | auto].
  - split; [split; [discriminate | intros [? _]; discriminate]|].
    split; [discriminate|]. split; [discriminate | auto].
Qed.

Lemma skipEmptyTableRow_stops_iff_witness :
  fire (registerSkipEmptyTableRow [(Normal, Demo.rowListener)])
       (mkEvent false) (Demo.emptyRowAt 0) Demo.initial
  = Some (mkEvent true, Demo.emptyRowAt 0, Demo.initial)
  /\ fire (registerSkipEmptyTableRow [(Normal, Demo.rowListener)])
          (mkEvent false) (Demo.emptyRowAt 1) Demo.initial
     = fire [(Normal, Demo.rowListener)]
            (mkEvent false) (Demo.emptyRowAt 1) Demo.initial.
Proof.
  split.
  - destruct (skipEmptyTableRow_stops_iff (mkEvent false) (Demo.emptyRowAt 0)
                [(Normal, Demo.rowListener)] Demo.initial eq_refl)
      as (_ & H & _).
    + repeat constructor.
    + apply H; reflexivity.
  - destruct (skipEmptyTableRow_stops_iff (mkEvent false) (Demo.emptyRowAt 1)
                [(Normal, Demo.rowListener)] Demo.initial eq_refl)
      as (_ & _ & H & _).
    + repeat constructor.
    + apply H; [reflexivity | apply le_n].
Defined.

(** ** Further properties of the scanner *)

Lemma jsAdd_assoc (a b c : JsNumber) :
  Js.add (Js.add a b) c = Js.add a (Js.add b c).
Proof. destruct a, b, c; simpl; try reflexivity. f_equal. lia. Qed.

Lemma jsAdd_0_r (a : JsNumber) : Js.add a (Num 0) = a.
Proof. destruct a; simpl; [reflexivity|]. f_equal. lia. Qed.

Lemma countStartingTh_sum (children : list ViewItem) :
  forall acc : JsNumber,
    countStartingTh children acc =
    Js.add acc (jsSum (map colspanOf (leadingTh children))).
Proof.
  induction children as [|c rest IH]; intros acc; simpl.
  - symmetry. apply jsAdd_0_r.
  - destruct (View.nameIs "th" c); simpl.
    + rewrite IH, jsAdd_assoc. reflexivity.
    + symmetry. apply jsAdd_0_r.
Qed.

Lemma countStartingTh_fold (children : list ViewItem) :
  forall acc : JsNumber,
    countStartingTh children acc =
    fold_left Js.add (map colspanOf (leadingTh children)) acc.
Proof.
  induction children as [|c rest IH]; intros acc; [reflexivity|].
  cbn [countStartingTh leadingTh]. destruct (View.nameIs "th" c); [|reflexivity].
  cbn [map fold_left]. apply IH.
Qed.

Lemma fold_add_NaN (l : list JsNumber) : fold_left Js.add l NaN = NaN.
Proof. induction l as [|x l IH]; [reflexivity | exact IH]. Qed.

Lemma fold_add_Exists_NaN (l : list JsNumber) :
  forall acc, Exists (fun x => x = NaN) l -> fold_left Js.add l acc = NaN.
Proof.
  induction l as [|x l IH]; intros acc Hex; [inversion Hex|].
  cbn [fold_left]. apply Exists_cons in Hex as [-> | Hex].
  - replace (Js.add acc NaN) with NaN by (destruct acc; reflexivity).
    apply fold_add_NaN.
  - apply IH, Hex.
Qed.

(** X1: the loop of [scanRowForHeadingColumns] adds up, from left to right
    and starting from 0, the colspans of the maximal run of [th] cells at the
    front of the row's cells; the result is [NaN] as soon as one of these
    colspans does not parse. *)
Theorem scanRowForHeadingColumns_sum (tr : ViewItem) :
  scanRowForHeadingColumns tr
  = fold_left Js.add (map colspanOf (leadingTh (cells tr))) (Num 0)
  /\ (Exists (fun th => colspanOf th = NaN) (leadingTh (cells tr)) ->
      scanRowForHeadingColumns tr = NaN).
Proof.
  assert (Heq : scanRowForHeadingColumns tr
                = fold_left Js.add (map colspanOf (leadingTh (cells tr))) (Num 0)).
  { unfold scanRowForHeadingColumns. fold (cells tr). apply countStartingTh_fold. }
  split; [exact Heq|].
  intros Hex. rewrite Heq. apply fold_add_Exists_NaN.
  apply Exists_exists in Hex as (th & Hin & Hnan).
  apply Exists_exists. exists (colspanOf th). split; [|exact Hnan].
  apply list_elem_of_In, in_map, list_elem_of_In, Hin.
Qed.

(** X2: when the leading [th] cells of a row carry no [colspan] (none, or
    an empty one), the leading run is the number of these cells. *)
Theorem scanRowForHeadingColumns_default_colspan (tr : ViewItem) :
  Forall (fun th => View.getAttribute "colspan" th = None
                    \/ View.getAttribute "colspan" th = Some "")
         (leadingTh (cells tr)) ->
  scanRowForHeadingColumns tr = Num (Z.of_nat (length (leadingTh (cells tr)))).
Proof.
  unfold scanRowForHeadingColumns. fold (cells tr).
  rewrite countStartingTh_sum.
  assert (Hsum : forall l, Js.add (Num 0) (jsSum l) = jsSum l)
    by (intros l; destruct (jsSum l); reflexivity).
  rewrite Hsum. clear Hsum.
  induction (leadingTh (cells tr)) as [|th l IH]; intros Hall; [reflexivity|].
  apply Forall_cons in Hall as [Hth Hall].
  cbn [map jsSum fold_right length]. fold (jsSum (map colspanOf l)).
  rewrite (IH Hall).
  assert (Hc : colspanOf th = Num 1).
  { unfold colspanOf. destruct Hth as [-> | ->]; reflexivity. }
  rewrite Hc. simpl Js.add. f_equal. lia.
Qed.

Lemma scanRowForHeadingColumns_default_colspan_witness :
  scanRowForHeadingColumns
    (Sample.child 2 (Sample.child 0 Sample.runs312)) = Num 2.
Proof.
  apply (scanRowForHeadingColumns_default_colspan
           (Sample.child 2 (Sample.child 0 Sample.runs312))).
  repeat (constructor; [left; reflexivity|]). constructor.
Defined.

Lemma countStartingTh_nodes (l1 : list ViewItem) :
  forall (l2 : list ViewItem) (acc : JsNumber),
    map node l1 = map node l2 ->
    countStartingTh l1 acc = countStartingTh l2 acc.
Proof.
  induction l1 as [|c1 l1 IH]; intros [|c2 l2] acc Heq; try discriminate;
    [reflexivity|].
  cbn [map] in Heq. injection Heq as Hc Hl.
  cbn [countStartingTh].
  unfold View.nameIs, View.name, View.getAttribute. rewrite Hc.
  destruct (match node c2 with
            | ViewText _ => None
            | ViewElement n _ _ => Some n
            end) as [m|]; [|reflexivity].
  destruct (String.eqb m "th"); [|reflexivity].
  apply IH, Hl.
Qed.

Lemma filter_cells_imap (f : nat -> ViewNode -> ViewItem) (cs : list ViewNode) :
  (forall i c, node (f i c) = c) ->
  map node
      (List.filter (fun child => View.nameIs "th" child || View.nameIs "td" child)
                   (imap f cs))
  = List.filter isCellNode cs.
Proof.
  revert f. induction cs as [|c cs IH]; intros f Hf; [reflexivity|].
  cbn [imap List.filter].
  assert (Hcell : View.nameIs "th" (f 0%nat c) || View.nameIs "td" (f 0%nat c)
                  = isCellNode c).
  { unfold View.nameIs, View.name. rewrite Hf. destruct c; reflexivity. }
  rewrite Hcell. destruct (isCellNode c); cbn [map].
  - rewrite Hf. f_equal. apply IH. intros i x. apply Hf.
  - apply IH. intros i x. apply Hf.
Qed.

Lemma cells_nodes (p : list nat) (n : string) (a : list (string * string))
    (cs : list ViewNode) :
  map node (cells (mkItem p (ViewElement n a cs))) = List.filter isCellNode cs.
Proof.
  unfold cells, View.getChildren, View.childNodes. cbn [node path].
  apply filter_cells_imap. intros i c. reflexivity.
Qed.

(** X3: children of a row that are neither [th] nor [td] (text nodes, other
    elements) do not count for the leading run of heading cells, wherever
    they stand in the row. *)
Theorem scanRowForHeadingColumns_ignores_non_cells
    (p p' : list nat) (n n' : string) (a a' : list (string * string))
    (l1 l2 : list ViewNode) (x : ViewNode) :
  isCellNode x = false ->
  scanRowForHeadingColumns (mkItem p (ViewElement n a (l1 ++ x :: l2))) =
  scanRowForHeadingColumns (mkItem p' (ViewElement n' a' (l1 ++ l2))).
Proof.
  intros Hx. unfold scanRowForHeadingColumns.
  fold (cells (mkItem p (ViewElement n a (l1 ++ x :: l2)))).
  fold (cells (mkItem p' (ViewElement n' a' (l1 ++ l2)))).
  apply countStartingTh_nodes.
  rewrite !cells_nodes, !List.filter_app. cbn [List.filter]. rewrite Hx.
  reflexivity.
Qed.

Lemma scanRowForHeadingColumns_ignores_non_cells_witness :
  scanRowForHeadingColumns
    (View.root (Sample.tr [Sample.th "a"; Sample.text " "; Sample.th "b";
                           Sample.td "c"]))
  = scanRowForHeadingColumns
      (View.root (Sample.tr [Sample.th "a"; Sample.th "b"; Sample.td "c"])).
Proof.
  apply (scanRowForHeadingColumns_ignores_non_cells
           [] [] "tr" "tr" [] [] [Sample.th "a"] [Sample.th "b"; Sample.td "c"]
           (Sample.text " ")).
  reflexivity.
Defined.

(** X4: the test for implicit heading rows looks at every child of the row:
    a row of a body section with a child that is not a [th] element (a
    [td], a text node between heading cells) is classified Body. *)
Theorem body_section_row_with_other_child (viewTable section tr : ViewItem) :
  In (section, tr) (sourceRows viewTable) ->
  View.nameIs "tbody" section = true ->
  Exists (fun c => View.isElement "th" c = false) (View.getChildren tr) ->
  classified viewTable tr Body.
Proof.
  intros Hin Hbody Hex.
  pose proof (classified_spec viewTable section tr Hin) as Hc.
  assert (Hsec : In section (View.getChildren viewTable)).
  { unfold sourceRows in Hin. apply in_rowsOf in Hin. tauto. }
  assert (Hnot : forall n, n <> "tbody" ->
            isSaved (firstSection n (View.getChildren viewTable)) section = false).
  { intros n Hn. destruct (isSaved _ section) eqn:E; [|reflexivity].
    pose proof (isSaved_nameIs n viewTable section Hsec E) as Hname.
    destruct (Hn (nameIs_functional _ _ _ Hname Hbody)). }
  assert (Hall : forallb (View.nameIs "th") (View.getChildren tr) = false).
  { apply not_true_is_false. intros Hall. rewrite forallb_forall in Hall.
    apply Exists_exists in Hex as (c & Hc' & Hth).
    apply list_elem_of_In, Hall in Hc'. unfold View.isElement in Hth. congruence. }
  unfold spec_classify in Hc.
  rewrite (Hnot "thead"), (Hnot "tfoot"), Hall, andb_false_r in Hc
    by discriminate.
  exact Hc.
Qed.

Lemma body_section_row_with_other_child_witness :
  classified Sample2.strayText
             (Sample.child 0 (Sample.child 0 Sample2.strayText)) Body
  /\ scanRowForHeadingColumns (Sample.child 0 (Sample.child 0 Sample2.strayText))
     = Num 2.
Proof.
  split; [|reflexivity].
  apply (body_section_row_with_other_child Sample2.strayText
           (Sample.child 0 Sample2.strayText)).
  - vm_compute. tauto.
  - reflexivity.
  - apply Exists_cons_tl, Exists_cons_hd. reflexivity.
Defined.

Lemma rowsOfKind_Permutation (sections : list ViewItem)
    (rows : list (ViewItem * ViewItem)) :
  Permutation
    (rowsOfKind Heading sections rows ++ rowsOfKind Body sections rows
     ++ rowsOfKind Footer sections rows)
    (map snd rows).
Proof.
  unfold rowsOfKind. induction rows as [|[s r] rows IH]; [constructor|].
  cbn [List.filter map fst snd].
  destruct (spec_classify sections s r); cbn [RowKind_eqb map app].
  - constructor. exact IH.
  - rewrite <- Permutation_middle. constructor. exact IH.
  - rewrite app_assoc, <- Permutation_middle, <- app_assoc.
    constructor. exact IH.
Qed.

Lemma rowsOfKind_length (sections : list ViewItem)
    (rows : list (ViewItem * ViewItem)) :
  (length (rowsOfKind Heading sections rows)
   + length (rowsOfKind Body sections rows)
   + length (rowsOfKind Footer sections rows) = length rows)%nat.
Proof.
  pose proof (Permutation_length (rowsOfKind_Permutation sections rows)) as H.
  rewrite !length_app, length_map in H. lia.
Qed.

(** X5: the scanner neither loses nor repeats a row: the rows it returns
    are a rearrangement of the [tr] children of the head, body and foot
    sections of the table, all of them are [tr] elements, and the numbers of
    heading rows, body rows and footer rows add up to the number of these
    rows. *)
Theorem scanTable_rows_permutation (viewTable : ViewItem) :
  Permutation (res_rows (scanTable viewTable)) (map snd (sourceRows viewTable))
  /\ Forall (fun tr => View.isElement "tr" tr = true)
            (res_rows (scanTable viewTable))
  /\ (res_headingRows (scanTable viewTable)
      + length (bucket Body (scanLoop viewTable))
      + res_footerRows (scanTable viewTable)
      = length (sourceRows viewTable))%nat
  /\ length (res_rows (scanTable viewTable)) = length (sourceRows viewTable).
Proof.
  destruct (scanLoop_scanned viewTable) as [_ _ Hh Hb Hf Hhr Hfr _].
  assert (Hperm : Permutation (res_rows (scanTable viewTable))
                              (map snd (sourceRows viewTable))).
  { unfold scanTable. cbn [res_rows]. rewrite Hh, Hb, Hf.
    apply rowsOfKind_Permutation. }
  split; [exact Hperm|]. split; [|split].
  - apply Forall_forall. intros tr Htr.
    rewrite Hperm in Htr. apply list_elem_of_In, in_map_iff in Htr.
    destruct Htr as ([s r] & Heq & Hin). cbn in Heq. subst r.
    unfold sourceRows in Hin. apply in_rowsOf in Hin as (_ & _ & Hr).
    apply in_sectionRows in Hr. tauto.
  - unfold scanTable. cbn [res_headingRows res_footerRows bucket].
    rewrite Hhr, Hfr, Hh, Hb, Hf. apply rowsOfKind_length.
  - rewrite (Permutation_length Hperm). apply length_map.
Qed.

Lemma filter_kind_none (sections : list ViewItem) (k : RowKind)
    (rows : list (ViewItem * ViewItem)) :
  Forall (fun p => kindRank (spec_classify sections (fst p) (snd p)) <> kindRank k)
         rows ->
  rowsOfKind k sections rows = [].
Proof.
  unfold rowsOfKind. induction 1 as [|[s r] rows Hp _ IH]; [reflexivity|].
  cbn [List.filter fst snd] in *.
  destruct (spec_classify sections s r), k; cbn [RowKind_eqb];
    try exact IH; destruct Hp; reflexivity.
Qed.

Lemma rowsOfKind_sorted (sections : list ViewItem)
    (rows : list (ViewItem * ViewItem)) :
  StronglySorted le
    (map (fun p => kindRank (spec_classify sections (fst p) (snd p))) rows) ->
  rowsOfKind Heading sections rows ++ rowsOfKind Body sections rows
  ++ rowsOfKind Footer sections rows
  = map snd rows.
Proof.
  induction rows as [|[s r] rows IH]; [reflexivity|].
  cbn [map fst snd]. intros Hs. apply StronglySorted_inv in Hs as [Hs Hall].
  specialize (IH Hs).
  assert (Hge : Forall (fun p => (kindRank (spec_classify sections s r)
                                  <= kindRank (spec_classify sections (fst p) (snd p)))%nat)
                       rows).
  { apply List.Forall_forall. intros p Hp.
    apply (proj1 (List.Forall_forall _ _) Hall).
    apply in_map_iff. exists p. split; [reflexivity | exact Hp]. }
  unfold rowsOfKind at 1 2 3. cbn [List.filter fst snd].
  destruct (spec_classify sections s r) eqn:K; cbn [RowKind_eqb map kindRank] in *.
  - fold (rowsOfKind Heading sections rows) (rowsOfKind Body sections rows)
         (rowsOfKind Footer sections rows).
    cbn [app]. f_equal. exact IH.
  - fold (rowsOfKind Heading sections rows) (rowsOfKind Body sections rows)
         (rowsOfKind Footer sections rows).
    assert (Hh : rowsOfKind Heading sections rows = []).
    { apply filter_kind_none. eapply Forall_impl; [exact Hge|].
      cbn. intros p Hp. cbn in Hp. lia. }
    rewrite Hh in IH |- *. cbn [app] in *. f_equal. exact IH.
  - fold (rowsOfKind Heading sections rows) (rowsOfKind Body sections rows)
         (rowsOfKind Footer sections rows).
    assert (Hh : rowsOfKind Heading sections rows = []).
    { apply filter_kind_none. eapply Forall_impl; [exact Hge|].
      cbn. intros p Hp. cbn in Hp. lia. }
    assert (Hb : rowsOfKind Body sections rows = []).
    { apply filter_kind_none. eapply Forall_impl; [exact Hge|].
      cbn. intros p Hp. cbn in Hp. lia. }
    rewrite Hh, Hb in IH |- *. cbn [app] in *. f_equal. exact IH.
Qed.

(** X6: a table whose rows already stand in canonical order in the source
    (heading rows, then body rows, then footer rows) is not rearranged: the
    scanner returns its rows in document order. *)
Theorem scanTable_canonical_source_unchanged (viewTable : ViewItem) :
  canonicalSource viewTable ->
  res_rows (scanTable viewTable) = map snd (sourceRows viewTable).
Proof.
  intros Hs.
  destruct (scanLoop_scanned viewTable) as [_ _ Hh Hb Hf _ _ _].
  unfold scanTable. cbn [res_rows]. rewrite Hh, Hb, Hf.
  apply rowsOfKind_sorted, Hs.
Qed.

Lemma scanTable_canonical_source_unchanged_witness :
  map Sample.rowText (res_rows (scanTable Sample2.ordered))
  = map Sample.rowText (map snd (sourceRows Sample2.ordered)).
Proof.
  apply (f_equal (map Sample.rowText)).
  apply (scanTable_canonical_source_unchanged Sample2.ordered).
  unfold canonicalSource. vm_compute. repeat constructor.
Defined.

Lemma fold_updateHeadingColumns_cases (cs : list JsNumber) :
  forall h : option JsNumber,
    fold_left updateHeadingColumns cs h = h
    \/ exists c, In c cs /\ fold_left updateHeadingColumns cs h = Some c.
Proof.
  induction cs as [|c cs IH]; intros h; [left; reflexivity|].
  cbn [fold_left].
  destruct (IH (updateHeadingColumns h c)) as [Heq | (c' & Hin & Heq)].
  - rewrite Heq. unfold updateHeadingColumns.
    destruct (negb (Js.truthyOpt h) || _); [|left; reflexivity].
    right. exists c. split; [left; reflexivity | reflexivity].
  - right. exists c'. split; [right; exact Hin | exact Heq].
Qed.

(** X7: the heading-column count the scanner returns is never [NaN]; it is
    0 or the leading run of one of the body rows, and it is 0 when the table
    has no body row. *)
Theorem scanTable_headingColumns_is_a_run (viewTable : ViewItem) :
  (res_headingColumns (scanTable viewTable) = Num 0
   \/ In (res_headingColumns (scanTable viewTable))
         (map scanRowForHeadingColumns (bucket Body (scanLoop viewTable))))
  /\ res_headingColumns (scanTable viewTable) <> NaN
  /\ (bucket Body (scanLoop viewTable) = [] ->
      res_headingColumns (scanTable viewTable) = Num 0).
Proof.
  rewrite scanTable_headingColumns_fold. unfold foldHeadingColumns.
  split; [|split].
  - destruct (fold_updateHeadingColumns_cases
                (map scanRowForHeadingColumns (bucket Body (scanLoop viewTable)))
                None) as [-> | (c & Hin & ->)]; [left; reflexivity|].
    unfold Js.orZero. destruct (Js.truthy c); [right; exact Hin | left; reflexivity].
  - unfold Js.orZero.
    destruct (fold_left _ _ _) as [[|z]|]; cbn [Js.truthy]; try discriminate.
    destruct (negb (z =? 0)%Z); discriminate.
  - intros ->. reflexivity.
Qed.

Lemma minimum_spec (zs : list Z) :
  forall z, In (minimum z zs) (z :: zs)
            /\ Forall (fun y => (minimum z zs <= y)%Z) (z :: zs).
Proof.
  unfold minimum. induction zs as [|y zs IH]; intros z.
  - cbn. split; [left; reflexivity|]. constructor; [lia | constructor].
  - cbn [fold_left]. destruct (IH (Z.min z y)) as [Hin Hle].
    apply Forall_cons in Hle as [Hm Hle]. split.
    + destruct Hin as [Heq | Hin]; [|right; right; exact Hin].
      rewrite <- Heq. destruct (Z.min_spec z y) as [[_ ->] | [_ ->]];
        [left | right; left]; reflexivity.
    + constructor; [lia|]. constructor; [lia | exact Hle].
Qed.

(** X8: as long as every body row starts with a heading cell (every leading
    run is a positive number), the heading-column count the scanner returns
    is the minimum of the leading runs of the body rows. *)
Theorem scanTable_headingColumns_minimum (viewTable : ViewItem) (zs : list Z) :
  map scanRowForHeadingColumns (bucket Body (scanLoop viewTable)) = map Num zs ->
  zs <> [] ->
  Forall (fun z => (0 < z)%Z) zs ->
  exists z, res_headingColumns (scanTable viewTable) = Num z
            /\ In z zs /\ Forall (fun y => (z <= y)%Z) zs.
Proof.
  intros Hruns Hne Hpos. destruct zs as [|z zs]; [congruence|].
  exists (minimum z zs). destruct (minimum_spec zs z) as [Hin Hle].
  split; [|split; assumption].
  apply scanTable_headingColumns_positive_runs; assumption.
Qed.

Lemma scanTable_headingColumns_minimum_witness :
  exists z, res_headingColumns (scanTable Sample.runs312) = Num z
            /\ In z [3; 1; 2]%Z /\ Forall (fun y => (z <= y)%Z) [3; 1; 2]%Z.
Proof.
  apply (scanTable_headingColumns_minimum Sample.runs312 [3; 1; 2]%Z).
  - reflexivity.
  - discriminate.
  - repeat constructor.
Defined.

Lemma rowsOf_no_section (sections : list ViewItem) :
  Forall (fun c => isSection c = false) sections -> rowsOf sections = [].
Proof.
  unfold rowsOf. induction 1 as [|c l Hc _ IH]; [reflexivity|].
  cbn [List.filter]. rewrite Hc. exact IH.
Qed.

(** X9: only [thead], [tbody] and [tfoot] children of the table are looked
    into.  A table none of whose children is such a section (a caption, a
    row directly below the table, text) yields no row, no heading row, no
    footer row and no heading column. *)
Theorem scanTable_without_sections (viewTable : ViewItem) :
  Forall (fun c => isSection c = false) (View.getChildren viewTable) ->
  scanTable viewTable = mkScanResult 0 (Num 0) 0 [].
Proof.
  intros Hno.
  destruct (scanLoop_scanned viewTable) as [_ _ Hh Hb Hf Hhr Hfr Hhc].
  fold (sourceRows viewTable) in Hh, Hb, Hf.
  assert (Hrows : sourceRows viewTable = []) by (apply rowsOf_no_section, Hno).
  rewrite Hrows in Hh, Hb, Hf. cbn in Hh, Hb, Hf.
  unfold scanTable. rewrite Hhr, Hfr, Hhc, Hh, Hb, Hf. reflexivity.
Qed.

Lemma scanTable_without_sections_witness :
  scanTable Sample2.noSections = mkScanResult 0 (Num 0) 0 [].
Proof.
  apply (scanTable_without_sections Sample2.noSections).
  repeat (constructor; [reflexivity|]). constructor.
Defined.

(** ** Further properties of the converters *)

Lemma tableAttributes_lookup_aux (r : ScanResult) (k : string) :
  tableAttributes r !! k =
  if String.eqb k "footerRows" then
    if Js.truthy (natNum (res_footerRows r))
    then Some (SNum (natNum (res_footerRows r))) else None
  else if String.eqb k "headingRows" then
    if Js.truthy (natNum (res_headingRows r))
    then Some (SNum (natNum (res_headingRows r))) else None
  else if String.eqb k "headingColumns" then
    if Js.truthy (res_headingColumns r)
    then Some (SNum (res_headingColumns r)) else None
  else None.
Proof.
  unfold tableAttributes.
  destruct (String.eqb_spec k "footerRows") as [->|Hf].
  { destruct (Js.truthy (natNum (res_footerRows r))).
    - apply lookup_insert_eq.
    - destruct (Js.truthy (natNum (res_headingRows r)));
        destruct (Js.truthy (res_headingColumns r));
        rewrite ?lookup_insert_ne by discriminate; apply lookup_empty. }
  destruct (String.eqb_spec k "headingRows") as [->|Hh].
  { destruct (Js.truthy (natNum (res_footerRows r)));
      rewrite ?lookup_insert_ne by discriminate;
      destruct (Js.truthy (natNum (res_headingRows r)));
      rewrite ?lookup_insert_eq; try reflexivity;
      destruct (Js.truthy (res_headingColumns r));
      rewrite ?lookup_insert_ne by discriminate; apply lookup_empty. }
  destruct (String.eqb_spec k "headingColumns") as [->|Hc].
  { destruct (Js.truthy (natNum (res_footerRows r)));
      rewrite ?lookup_insert_ne by discriminate;
      destruct (Js.truthy (natNum (res_headingRows r)));
      rewrite ?lookup_insert_ne by discriminate;
      destruct (Js.truthy (res_headingColumns r));
      rewrite ?lookup_insert_eq; try reflexivity; apply lookup_empty. }
  destruct (Js.truthy (natNum (res_footerRows r)));
    rewrite ?lookup_insert_ne by congruence;
    destruct (Js.truthy (natNum (res_headingRows r)));
    rewrite ?lookup_insert_ne by congruence;
    destruct (Js.truthy (res_headingColumns r));
    rewrite ?lookup_insert_ne by congruence; apply lookup_empty.
Qed.

Lemma truthy_natNum (n : nat) : Js.truthy (natNum n) = negb (n =? 0)%nat.
Proof.
  unfold natNum, Js.truthy. f_equal.
  destruct (Z.eqb_spec (Z.of_nat n) 0), (Nat.eqb_spec n 0); try reflexivity; lia.
Qed.

(** X10: the attributes [upcastTable] creates the table with: [headingRows]
    and [footerRows] are present exactly when the count is not 0 and then
    hold the count, [headingColumns] is present exactly when the scanned
    number is not 0, and no other attribute is set. *)
Theorem tableAttributes_only_nonzero (r : ScanResult) :
  tableAttributes r !! "headingRows"
  = (if (res_headingRows r =? 0)%nat then None
     else Some (SNum (natNum (res_headingRows r))))
  /\ tableAttributes r !! "footerRows"
     = (if (res_footerRows r =? 0)%nat then None
        else Some (SNum (natNum (res_footerRows r))))
  /\ tableAttributes r !! "headingColumns"
     = (match res_headingColumns r with
        | Num z => if (z =? 0)%Z then None else Some (SNum (Num z))
        | NaN => None
        end)
  /\ (forall k, k <> "headingRows" -> k <> "footerRows" ->
                k <> "headingColumns" -> tableAttributes r !! k = None).
Proof.
  split; [|split; [|split]].
  - rewrite tableAttributes_lookup_aux. cbn [String.eqb Ascii.eqb Bool.eqb].
    rewrite truthy_natNum. destruct (res_headingRows r =? 0)%nat; reflexivity.
  - rewrite tableAttributes_lookup_aux. rewrite String.eqb_refl.
    rewrite truthy_natNum. destruct (res_footerRows r =? 0)%nat; reflexivity.
  - rewrite tableAttributes_lookup_aux. cbn [String.eqb Ascii.eqb Bool.eqb].
    destruct (res_headingColumns r) as [|z]; cbn [Js.truthy]; [reflexivity|].
    destruct (z =? 0)%Z; reflexivity.
  - intros k Hh Hf Hc. rewrite tableAttributes_lookup_aux.
    destruct (String.eqb_spec k "footerRows"); [congruence|].
    destruct (String.eqb_spec k "headingRows"); [congruence|].
    destruct (String.eqb_spec k "headingColumns"); [congruence|].
    reflexivity.
Qed.

Lemma find_first {A : Type} (f : A -> bool) (l : list A) :
  match List.find f l with
  | Some x => exists l1 l2, l = l1 ++ x :: l2 /\ f x = true
                            /\ Forall (fun y => f y = false) l1
  | None => Forall (fun y => f y = false) l
  end.
Proof.
  induction l as [|a l IH]; cbn [List.find]; [constructor|].
  destruct (f a) eqn:Fa.
  - exists [], l. repeat split; [exact Fa | constructor].
  - destruct (List.find f l) as [x|].
    + destruct IH as (l1 & l2 & -> & Hx & Hall).
      exists (a :: l1), l2. repeat split; [exact Hx|].
      constructor; assumption.
    + constructor; assumption.
Qed.

(** [getViewTableFromFigure] returns the first child of the figure that
    is a [table] element, and nothing exactly when no child of the figure is
    one. *)
Theorem getViewTableFromFigure_first_table (figureView : ViewItem) :
  match getViewTableFromFigure figureView with
  | Some viewTable =>
      exists l1 l2, View.getChildren figureView = l1 ++ viewTable :: l2
                    /\ View.isElement "table" viewTable = true
                    /\ Forall (fun c => View.isElement "table" c = false) l1
  | None =>
      Forall (fun c => View.isElement "table" c = false)
             (View.getChildren figureView)
  end.
Proof. unfold getViewTableFromFigure. apply find_first. Qed.

Lemma upcastTableFigure_consumed (conversionApi : ConversionApi)
    (data : Data) (s : ConvState) :
  Consumable.test (consumable s) (viewItem data) figureAspects = false ->
  upcastTableFigure conversionApi data s = Some (data, s).
Proof. intros H. unfold upcastTableFigure. rewrite H. reflexivity. Qed.

(** X11: the figure handler declines without any effect (nothing consumed,
    no converter called, data unchanged) when the name or the class [table]
    of the figure is already consumed, when no child of the figure is a
    [table] element, and when the name of its first table is already
    consumed. *)
Theorem upcastTableFigure_declines (conversionApi : ConversionApi)
    (data : Data) (s : ConvState) :
  Consumable.test (consumable s) (viewItem data) figureAspects = false
  \/ Forall (fun c => View.isElement "table" c = false)
            (View.getChildren (viewItem data))
  \/ (exists viewTable,
         getViewTableFromFigure (viewItem data) = Some viewTable
         /\ ((path viewTable, AName) ∈ consumable s)) ->
  upcastTableFigure conversionApi data s = Some (data, s).
Proof.
  intros H. unfold upcastTableFigure.
  destruct (Consumable.test (consumable s) (viewItem data) figureAspects);
    [|reflexivity].
  cbn [negb].
  destruct H as [H | [H | (viewTable & Hfind & Hin)]]; [discriminate | |].
  - pose proof (find_first (View.isElement "table")
                  (View.getChildren (viewItem data))) as Hf.
    fold (getViewTableFromFigure (viewItem data)) in Hf.
    destruct (getViewTableFromFigure (viewItem data)) as [v|]; [|reflexivity].
    destruct Hf as (l1 & l2 & Heq & Hv & _). rewrite Heq in H.
    apply Forall_app in H as [_ H]. apply Forall_cons in H as [H _]. congruence.
  - rewrite Hfind.
    assert (Ht : Consumable.test (consumable s) viewTable [AName] = false).
    { unfold Consumable.test. cbn [forallb]. rewrite andb_true_r.
      apply bool_decide_eq_false. intros Hn. exact (Hn Hin). }
    rewrite Ht. reflexivity.
Qed.

Lemma upcastTableFigure_declines_witness :
  upcastTableFigure Demo.rowsApi (Demo.atRoot Sample2.figureWithoutTable)
                    Demo.initial
  = Some (Demo.atRoot Sample2.figureWithoutTable, Demo.initial).
Proof.
  apply (upcastTableFigure_declines Demo.rowsApi
           (Demo.atRoot Sample2.figureWithoutTable) Demo.initial).
  right. left. repeat (constructor; [reflexivity|]). constructor.
Defined.

(** X12: the cell repair leaves the model as it is when no range was
    produced for the cell, and when the view cell is not empty and the model
    cell has a child that is not a marker; it fails when a range was produced
    but no node follows its start. *)
Theorem ensureParagraphInTableCell_unchanged (data : Data) (m : Model) :
  (modelRange data = None -> ensureParagraphInTableCell data m = Some m)
  /\ (forall range,
        modelRange data = Some range ->
        Writer.nodeAfter (start range) m = None ->
        ensureParagraphInTableCell data m = None)
  /\ (forall range tableCell,
        modelRange data = Some range ->
        Writer.nodeAfter (start range) m = Some tableCell ->
        View.isEmpty (viewItem data) = false ->
        Exists (fun c => Writer.isElement "$marker" m c = false)
               (Writer.children tableCell m) ->
        ensureParagraphInTableCell data m = Some m).
Proof.
  unfold ensureParagraphInTableCell. split; [|split].
  - intros ->. reflexivity.
  - intros range -> ->. reflexivity.
  - intros range tableCell -> -> -> Hex.
    assert (Hall : forallb (Writer.isElement "$marker" m)
                           (Writer.children tableCell m) = false).
    { apply not_true_is_false. intros Hall. rewrite forallb_forall in Hall.
      apply Exists_exists in Hex as (c & Hc & Hm).
      apply list_elem_of_In, Hall in Hc. congruence. }
    rewrite Hall. reflexivity.
Qed.

(** ** The writer keeps models well-formed *)

Lemma createElement_wf (n : string) (attrs : gmap string Scalar) (m : Model) :
  wf_model m -> wf_model (snd (Writer.createElement n attrs m)).
Proof.
  intros Hwf id x Hx. rewrite createElement_lookup in Hx.
  cbn [Writer.createElement snd nextId].
  destruct (decide (nextId m = id)) as [<-|Hne].
  - injection Hx as <-. cbn [mchildren].
    split; [lia|]. split; constructor.
  - destruct (Hwf id x Hx) as (Hlt & Hall & Hnd).
    split; [lia|]. split; [|exact Hnd].
    eapply Forall_impl; [exact Hall|]. intros c [nc Hc]. cbn [nodes].
    destruct (decide (nextId m = c)) as [<-|Hc'].
    + rewrite lookup_insert_eq. eexists. reflexivity.
    + rewrite lookup_insert_ne by exact Hc'. eexists. exact Hc.
Qed.

Lemma insert_is_Some (id : nat) (p : Position) (m : Model) (x : nat) :
  is_Some (nodes (Writer.insert id p m) !! x) <-> is_Some (nodes m !! x).
Proof.
  rewrite insert_lookup. destruct (decide (parent p = x)); [|reflexivity].
  rewrite fmap_is_Some. reflexivity.
Qed.

Lemma detach_is_Some (id : nat) (m : Model) (x : nat) :
  is_Some (nodes (Writer.detach id m) !! x) <-> is_Some (nodes m !! x).
Proof. rewrite detach_lookup, fmap_is_Some. reflexivity. Qed.

Lemma spliceAt_Permutation (o id : nat) (l : list nat) :
  Permutation (Writer.spliceAt o id l) (id :: l).
Proof.
  unfold Writer.spliceAt. rewrite <- Permutation_middle, take_drop. reflexivity.
Qed.

Lemma insert_wf (id : nat) (p : Position) (m : Model) :
  wf_model m -> is_Some (nodes m !! id) ->
  ~ In id (Writer.children (parent p) m) ->
  wf_model (Writer.insert id p m).
Proof.
  intros Hwf Hid Hfresh x n Hx. rewrite insert_lookup in Hx.
  cbn [Writer.insert nextId].
  assert (Hkeep : forall l, Forall (fun c => is_Some (nodes m !! c)) l ->
            Forall (fun c => is_Some (nodes (Writer.insert id p m) !! c)) l).
  { intros l Hl. eapply Forall_impl; [exact Hl|].
    intros c Hc. apply insert_is_Some, Hc. }
  destruct (decide (parent p = x)) as [<-|Hne].
  - destruct (nodes m !! parent p) as [n'|] eqn:E; [|discriminate].
    injection Hx as <-. destruct (Hwf _ _ E) as (Hlt & Hall & Hnd).
    rewrite (children_lookup _ _ _ E) in Hfresh.
    split; [exact Hlt|]. cbn [Writer.setChildren mchildren]. split.
    + apply Hkeep. rewrite (spliceAt_Permutation (offset p) id (mchildren n')).
      constructor; assumption.
    + rewrite (spliceAt_Permutation (offset p) id (mchildren n')).
      constructor; [|exact Hnd]. rewrite list_elem_of_In. exact Hfresh.
  - destruct (Hwf _ _ Hx) as (Hlt & Hall & Hnd).
    split; [exact Hlt|]. split; [apply Hkeep, Hall | exact Hnd].
Qed.

Lemma without_NoDup (id : nat) (l : list nat) :
  NoDup l -> NoDup (Writer.without id l).
Proof.
  intros Hnd. unfold Writer.without. apply NoDup_ListNoDup, List.NoDup_filter,
    NoDup_ListNoDup, Hnd.
Qed.

Lemma detach_wf (id : nat) (m : Model) :
  wf_model m -> wf_model (Writer.detach id m).
Proof.
  intros Hwf x n Hx. rewrite detach_lookup in Hx.
  destruct (nodes m !! x) as [n'|] eqn:E; [|discriminate].
  injection Hx as <-. destruct (Hwf _ _ E) as (Hlt & Hall & Hnd).
  split; [exact Hlt|]. cbn [Writer.setChildren mchildren]. split.
  - apply Forall_forall. intros c Hc.
    apply list_elem_of_In, without_in in Hc as [Hc _].
    apply detach_is_Some. rewrite Forall_forall in Hall.
    apply Hall, list_elem_of_In, Hc.
  - apply without_NoDup, Hnd.
Qed.

Lemma move_wf (id : nat) (p : Position) (m : Model) :
  wf_model m -> is_Some (nodes m !! id) -> wf_model (Writer.move id p m).
Proof.
  intros Hwf Hid. unfold Writer.move. apply insert_wf.
  - apply detach_wf, Hwf.
  - apply detach_is_Some, Hid.
  - cbn [parent]. rewrite detach_children. intros Hin.
    apply without_in in Hin as [_ Hne]. congruence.
Qed.

Lemma move_is_Some (id : nat) (p : Position) (m : Model) (x : nat) :
  is_Some (nodes (Writer.move id p m) !! x) <-> is_Some (nodes m !! x).
Proof. unfold Writer.move. rewrite insert_is_Some. apply detach_is_Some. Qed.

Lemma move_names (id : nat) (p : Position) (m : Model) (x : nat) :
  mname <$> nodes (Writer.move id p m) !! x = mname <$> nodes m !! x.
Proof.
  unfold Writer.move. rewrite insert_lookup, detach_lookup. cbn [parent].
  destruct (decide (parent p = x)); destruct (nodes m !! x); reflexivity.
Qed.

Lemma moveAll_wf (paragraph : nat) (ms : list nat) :
  forall m : Model,
    wf_model m -> Forall (fun c => is_Some (nodes m !! c)) ms ->
    wf_model (moveAll paragraph ms m)
    /\ nextId (moveAll paragraph ms m) = nextId m
    /\ (forall x, mname <$> nodes (moveAll paragraph ms m) !! x
                  = mname <$> nodes m !! x).
Proof.
  unfold moveAll. induction ms as [|a ms IH]; intros m Hwf Hall; [auto|].
  apply Forall_cons in Hall as [Ha Hall]. cbn [fold_left].
  set (m1 := Writer.move a (Writer.createPositionAtEnd paragraph m) m).
  destruct (IH m1) as (Hwf' & Hn & Hnames).
  - apply move_wf; assumption.
  - eapply Forall_impl; [exact Hall|]. intros c Hc. apply move_is_Some, Hc.
  - split; [exact Hwf'|]. split; [rewrite Hn; reflexivity|].
    intros x. rewrite Hnames. apply move_names.
Qed.

Lemma insertElement_wf (n : string) (p : Position) (m : Model) :
  wf_model m -> (parent p < nextId m)%nat ->
  wf_model (Writer.insertElement n p m).
Proof.
  intros Hwf Hlt.
  change (Writer.insertElement n p m)
    with (Writer.insert (nextId m) p (snd (Writer.createElement n ∅ m))).
  apply insert_wf.
  - apply createElement_wf, Hwf.
  - rewrite createElement_lookup, decide_True by reflexivity. eexists. reflexivity.
  - unfold Writer.children.
    rewrite createElement_lookup, decide_False by lia.
    fold (Writer.children (parent p) m). intros Hin.
    pose proof (children_wf _ _ _ Hwf Hin). lia.
Qed.

(** X13: the cell repair keeps the model well-formed, never lowers the
    allocation counter and leaves every node that was there before with the
    name it had: it adds at most a paragraph and moves markers, and renames
    or removes nothing. *)
Theorem ensureParagraphInTableCell_keeps_model_wf (data : Data) (m m' : Model) :
  wf_model m ->
  ensureParagraphInTableCell data m = Some m' ->
  wf_model m'
  /\ (nextId m <= nextId m')%nat
  /\ (forall x, (x < nextId m)%nat ->
                mname <$> nodes m' !! x = mname <$> nodes m !! x).
Proof.
  intros Hwf. unfold ensureParagraphInTableCell.
  destruct (modelRange data) as [range|];
    [|intros [= <-]; split; [exact Hwf | split; [lia | reflexivity]]].
  destruct (Writer.nodeAfter (start range) m) as [tableCell|] eqn:Hcell;
    [|discriminate].
  destruct (nodeAfter_wf _ _ _ Hwf Hcell) as [Hsome Hlt].
  destruct (insertElement_start "paragraph" tableCell m Hsome Hlt)
    as (_ & _ & _ & Hnames & Hnext).
  assert (Hwf1 : wf_model (Writer.insertElement "paragraph"
                             (Writer.createPositionAt tableCell 0) m))
    by (apply insertElement_wf; [exact Hwf | exact Hlt]).
  destruct (View.isEmpty (viewItem data)).
  - intros [= <-]. split; [exact Hwf1|]. split; [rewrite Hnext; lia|].
    intros x Hx. apply Hnames. lia.
  - destruct (forallb (Writer.isElement "$marker" m) (Writer.children tableCell m));
      [|intros [= <-]; split; [exact Hwf | split; [lia | reflexivity]]].
    cbn [Writer.createElement].
    change (Writer.insert (nextId m) (Writer.createPositionAt tableCell 0)
              (mkModel (<[nextId m := mkNode "paragraph" ∅ []]> (nodes m))
                       (S (nextId m))))
      with (Writer.insertElement "paragraph"
              (Writer.createPositionAt tableCell 0) m).
    intros [= <-].
    destruct (moveAll_wf (nextId m) (Writer.children tableCell m)
                (Writer.insertElement "paragraph"
                   (Writer.createPositionAt tableCell 0) m) Hwf1)
      as (Hwf' & Hn & Hnames').
    + apply Forall_forall. intros c Hc. apply list_elem_of_In in Hc.
      pose proof (children_wf _ _ _ Hwf Hc) as Hclt.
      assert (Hex : is_Some (nodes m !! c)).
      { unfold Writer.children in Hc.
        destruct (nodes m !! tableCell) as [n|] eqn:E; [|destruct Hc].
        destruct (Hwf _ _ E) as (_ & Hall & _). rewrite Forall_forall in Hall.
        apply Hall, list_elem_of_In, Hc. }
      specialize (Hnames c ltac:(lia)).
      destruct Hex as [nc Hnc]. rewrite Hnc in Hnames.
      destruct (nodes _ !! c); [eexists; reflexivity | discriminate].
    + split; [exact Hwf'|]. split; [rewrite Hn, Hnext; lia|].
      intros x Hx. rewrite Hnames'. apply Hnames. lia.
Qed.

Lemma ensureParagraphInTableCell_keeps_model_wf_witness :
  exists m',
    ensureParagraphInTableCell Demo.filledCellData Demo.markerCell = Some m'
    /\ wf_model m' /\ (4 <= nextId m')%nat.
Proof.
  destruct (ensureParagraphInTableCell Demo.filledCellData Demo.markerCell)
    as [m'|] eqn:E; [|vm_compute in E; discriminate].
  exists m'. split; [reflexivity|].
  destruct (ensureParagraphInTableCell_keeps_model_wf
              Demo.filledCellData Demo.markerCell m'
              (wf_modelb_sound Demo.markerCell eq_refl) E) as (Hwf & Hn & _).
  split; [exact Hwf | exact Hn].
Defined.

Lemma insert_new_wf (n : string) (attrs : gmap string Scalar) (p : Position)
    (m : Model) :
  wf_model m ->
  wf_model (Writer.insert (nextId m) p (snd (Writer.createElement n attrs m))).
Proof.
  intros Hwf. apply insert_wf.
  - apply createElement_wf, Hwf.
  - rewrite createElement_lookup, decide_True by reflexivity. eexists. reflexivity.
  - unfold Writer.children. rewrite createElement_lookup.
    destruct (decide (nextId m = parent p)) as [_|Hne]; [intros []|].
    fold (Writer.children (parent p) m). intros Hin.
    pose proof (children_wf _ _ _ Hwf Hin). lia.
Qed.

Lemma createElement_is_Some (n : string) (attrs : gmap string Scalar)
    (m : Model) (x : nat) :
  is_Some (nodes m !! x) ->
  is_Some (nodes (snd (Writer.createElement n attrs m)) !! x).
Proof.
  intros H. rewrite createElement_lookup.
  destruct (decide (nextId m = x)); [eexists; reflexivity | exact H].
Qed.

Lemma fillEmptyTable_step (table : nat) (m : Model) :
  wf_model m -> modelStep m (fillEmptyTable table m).
Proof.
  intros Hwf. unfold fillEmptyTable.
  destruct (Writer.isEmpty table m) eqn:He; [|split; auto].
  change (snd (createEmptyTableCell ?p ?m0))
    with (Writer.insert (nextId m0) p (snd (Writer.createElement "tableCell" ∅ m0))).
  cbn [Writer.createElement]. split.
  - apply insert_new_wf.
    apply (insert_new_wf "tableRow" ∅ _ m), Hwf.
  - intros x Hx.
    apply insert_is_Some, (createElement_is_Some "tableCell" ∅), insert_is_Some.
    apply (createElement_is_Some "tableRow" ∅ m), Hx.
Qed.

(** X14: the repair of an empty table in [upcastTable] keeps the model
    well-formed and leaves the table with a child; it does nothing to a table
    that has a child, so that running it a second time changes nothing. *)
Theorem fillEmptyTable_idempotent (table : nat) (m : Model) :
  wf_model m -> is_Some (nodes m !! table) ->
  wf_model (fillEmptyTable table m)
  /\ Writer.isEmpty table (fillEmptyTable table m) = false
  /\ (Writer.isEmpty table m = false -> fillEmptyTable table m = m)
  /\ fillEmptyTable table (fillEmptyTable table m) = fillEmptyTable table m.
Proof.
  intros Hwf Ht.
  assert (Hlt : (table < nextId m)%nat)
    by (destruct Ht as [n Hn]; apply (Hwf _ _ Hn)).
  assert (Hnoop : forall m0, Writer.isEmpty table m0 = false ->
                             fillEmptyTable table m0 = m0).
  { intros m0 H. unfold fillEmptyTable. rewrite H. reflexivity. }
  destruct (Writer.isEmpty table m) eqn:He.
  - destruct (fillEmptyTable_empty table m Ht Hlt He) as (Hc & _ & _ & _).
    assert (Hne : Writer.isEmpty table (fillEmptyTable table m) = false)
      by (unfold Writer.isEmpty; rewrite Hc; reflexivity).
    split; [|split; [exact Hne | split; [discriminate | apply Hnoop, Hne]]].
    apply fillEmptyTable_step, Hwf.
  - rewrite (Hnoop m He).
    split; [exact Hwf|]. split; [exact He|]. split; [reflexivity | apply Hnoop, He].
Qed.

Lemma fillEmptyTable_idempotent_witness :
  wf_model (fillEmptyTable 1 Sample2.tableWithoutRow)
  /\ Writer.children 1 (fillEmptyTable 1 Sample2.tableWithoutRow) = [2%nat]
  /\ fillEmptyTable 1 (fillEmptyTable 1 Sample2.tableWithoutRow)
     = fillEmptyTable 1 Sample2.tableWithoutRow
  /\ fillEmptyTable 1 Sample2.tableWithRow = Sample2.tableWithRow.
Proof.
  destruct (fillEmptyTable_idempotent 1 Sample2.tableWithoutRow
              (wf_modelb_sound Sample2.tableWithoutRow eq_refl)
              ltac:(eexists; reflexivity)) as (Hwf & _ & _ & Hid).
  destruct (fillEmptyTable_idempotent 1 Sample2.tableWithRow
              (wf_modelb_sound Sample2.tableWithRow eq_refl)
              ltac:(eexists; reflexivity)) as (_ & _ & Hno & _).
  split; [exact Hwf|]. split; [reflexivity|]. split; [exact Hid|].
  apply Hno. reflexivity.
Defined.

Lemma modelStep_refl (m : Model) : wf_model m -> modelStep m m.
Proof. intros H. split; auto. Qed.

Lemma modelStep_trans (m1 m2 m3 : Model) :
  modelStep m1 m2 -> modelStep m2 m3 -> modelStep m1 m3.
Proof. intros [_ H12] [Hwf H23]. split; auto. Qed.

Lemma convertRows_step (conversionApi : ConversionApi) (table : nat)
    (rows : list ViewItem) :
  keepsModels conversionApi ->
  forall s, wf_model (model s) ->
    modelStep (model s) (model (convertRows conversionApi table rows s)).
Proof.
  intros Hk. unfold convertRows.
  induction rows as [|row rows IH]; intros s Hwf; [apply modelStep_refl, Hwf|].
  cbn [fold_left].
  pose proof (km_convertItem _ Hk row
                (Writer.createPositionAtEnd table (model s)) s Hwf) as Hstep.
  eapply modelStep_trans; [exact Hstep|]. apply IH, Hstep.
Qed.

Lemma upcastTableContent_step (conversionApi : ConversionApi) (table : nat)
    (viewTable : ViewItem) (rows : list ViewItem) (s : ConvState) :
  keepsModels conversionApi -> wf_model (model s) ->
  modelStep (model s)
            (model (upcastTableContent conversionApi table viewTable rows s)).
Proof.
  intros Hk Hwf. unfold upcastTableContent.
  pose proof (convertRows_step conversionApi table rows Hk s Hwf) as Hrows.
  eapply modelStep_trans; [exact Hrows|].
  apply (km_convertChildren _ Hk), Hrows.
Qed.

Lemma createElement_detached (n : string) (attrs : gmap string Scalar)
    (m : Model) :
  wf_model m -> detached (nextId m) (snd (Writer.createElement n attrs m)).
Proof.
  intros Hwf x nx Hx. rewrite createElement_lookup in Hx.
  destruct (decide (nextId m = x)) as [_|_].
  - injection Hx as <-. intros [].
  - intros Hin. pose proof (children_wf m x (nextId m) Hwf) as Hlt.
    rewrite (children_lookup _ _ _ Hx) in Hlt. specialize (Hlt Hin). lia.
Qed.

(** X15: with engine functions that keep the model well-formed and remove
    no node, [upcastTable] keeps the model well-formed and removes no node;
    when the table was inserted, the model holds the new table and the table
    has a child. *)
Theorem upcastTable_keeps_model_wf (conversionApi : ConversionApi)
    (data : Data) (s : ConvState) :
  keepsModels conversionApi ->
  wf_model (model s) ->
  let table := nextId (model s) in
  let m1 :=
    snd (Writer.createElement "table"
           (tableAttributes (scanTable (viewItem data))) (model s)) in
  let s' := snd (upcastTable conversionApi data s) in
  modelStep (model s) (model s')
  /\ (Consumable.test (consumable s) (viewItem data) [AName] = true ->
      fst (safeInsert conversionApi table (modelCursor data) m1) = true ->
      is_Some (nodes (model s') !! table)
      /\ Writer.isEmpty table (model s') = false).
Proof.
  intros Hk Hwf table m1 s'. subst s'. unfold upcastTable.
  destruct (Consumable.test (consumable s) (viewItem data) [AName]);
    cbn [negb]; [|split; [apply modelStep_refl, Hwf | discriminate]].
  cbn [Writer.createElement]. fold table. change (mkModel _ _) with m1.
  assert (Hwf1 : wf_model m1) by (apply createElement_wf, Hwf).
  assert (Ht1 : is_Some (nodes m1 !! table)).
  { unfold m1. rewrite createElement_lookup, decide_True by reflexivity.
    eexists. reflexivity. }
  assert (Hstep1 : modelStep (model s) m1).
  { split; [exact Hwf1|]. intros x Hx. apply createElement_is_Some, Hx. }
  pose proof (km_safeInsert _ Hk table (modelCursor data) m1 Hwf1 Ht1
                (createElement_detached _ _ _ Hwf)) as Hstep2.
  destruct (safeInsert conversionApi table (modelCursor data) m1)
    as [inserted m2]. cbn [fst snd] in *.
  destruct inserted; cbn [negb snd model].
  - pose proof (upcastTableContent_step conversionApi table (viewItem data)
                  (res_rows (scanTable (viewItem data)))
                  (upcastTableConsumed (viewItem data) s m2) Hk
                  (proj1 Hstep2)) as Hstep3.
    cbn [upcastTableConsumed model] in Hstep3.
    set (s5 := upcastTableContent conversionApi table (viewItem data) _ _) in *.
    pose proof (fillEmptyTable_step table (model s5) (proj1 Hstep3)) as Hstep4.
    assert (Hall : modelStep (model s) (fillEmptyTable table (model s5))).
    { eapply modelStep_trans; [exact Hstep1|].
      eapply modelStep_trans; [exact Hstep2|].
      eapply modelStep_trans; [exact Hstep3 | exact Hstep4]. }
    split; [exact Hall|]. intros _ _.
    assert (Ht5 : is_Some (nodes (model s5) !! table))
      by (apply Hstep3, Hstep2, Ht1).
    split; [apply Hstep4, Ht5|].
    destruct (Writer.isEmpty table (model s5)) eqn:He.
    + assert (Hlt : (table < nextId (model s5))%nat)
        by (destruct Ht5 as [n Hn]; apply (proj1 Hstep3 _ _ Hn)).
      destruct (fillEmptyTable_empty table (model s5) Ht5 Hlt He) as (Hc & _).
      unfold Writer.isEmpty. rewrite Hc. reflexivity.
    + unfold fillEmptyTable. rewrite He. exact He.
  - split; [|discriminate].
    eapply modelStep_trans; [exact Hstep1 | exact Hstep2].
Qed.

Lemma rowsApi_keepsModels : keepsModels Demo.rowsApi.
Proof.
  split.
  - intros v p s Hwf. cbn [Demo.rowsApi convertItem]. unfold Demo.convertRow.
    destruct (View.isElement "tr" v); [|apply modelStep_refl, Hwf].
    cbn [Writer.createElement snd model]. split.
    + apply (insert_new_wf "tableRow" _ p (model s)), Hwf.
    + intros x Hx. apply insert_is_Some.
      apply (createElement_is_Some "tableRow" _ (model s)), Hx.
  - intros v p s Hwf. apply modelStep_refl, Hwf.
  - intros id p m Hwf Hid Hdet. cbn [Demo.rowsApi safeInsert Demo.acceptInsert snd].
    split.
    + apply insert_wf; [exact Hwf | exact Hid |].
      unfold Writer.children.
      destruct (nodes m !! parent p) as [n|] eqn:E; [|intros []].
      apply (Hdet _ _ E).
    + intros x Hx. apply insert_is_Some, Hx.
Qed.

Lemma upcastTable_keeps_model_wf_witness :
  let s' := snd (upcastTable Demo.rowsApi (Demo.atRoot Sample.unordered)
                             Demo.initial) in
  wf_model (model s') /\ Writer.isEmpty 1 (model s') = false.
Proof.
  destruct (upcastTable_keeps_model_wf Demo.rowsApi
              (Demo.atRoot Sample.unordered) Demo.initial rowsApi_keepsModels
              (wf_modelb_sound Demo.rootModel eq_refl)) as [[Hwf _] H].
  destruct (H eq_refl eq_refl) as [_ He].
  split; [exact Hwf | exact He].
Defined.

Lemma convertRows_consumes (conversionApi : ConversionApi) (table : nat)
    (rows : list ViewItem) :
  onlyConsumes conversionApi ->
  forall s, consumable s ⊆ consumable (convertRows conversionApi table rows s).
Proof.
  intros Ho. unfold convertRows.
  induction rows as [|row rows IH]; intros s; [reflexivity|].
  cbn [fold_left]. etransitivity; [|apply IH].
  apply (oc_convertItem _ Ho).
Qed.

(** X16: a view table is converted once.  When the converters the API runs
    revert no consumption, the name of the view table is consumed after a run
    of [upcastTable] that inserted the table, and the handler then declines
    the same view table without any effect. *)
Theorem upcastTable_converts_once (conversionApi : ConversionApi)
    (data data2 : Data) (s : ConvState) :
  onlyConsumes conversionApi ->
  Consumable.test (consumable s) (viewItem data) [AName] = true ->
  fst (safeInsert conversionApi (nextId (model s)) (modelCursor data)
         (snd (Writer.createElement "table"
                 (tableAttributes (scanTable (viewItem data))) (model s))))
  = true ->
  viewItem data2 = viewItem data ->
  let s' := snd (upcastTable conversionApi data s) in
  Consumable.test (consumable s') (viewItem data) [AName] = false
  /\ upcastTable conversionApi data2 s' = (data2, s').
Proof.
  intros Ho Htest Hins Hview s'.
  assert (Hin : (path (viewItem data), AName) ∈ consumable s').
  { subst s'. unfold upcastTable. rewrite Htest. cbn [negb].
    cbn [Writer.createElement] in Hins |- *.
    destruct (safeInsert conversionApi _ _ _) as [inserted m2].
    cbn [fst] in Hins. subst inserted. cbn [negb snd consumable].
    unfold upcastTableContent.
    apply (oc_convertChildren _ Ho), (convertRows_consumes _ _ _ Ho).
    unfold upcastTableConsumed, Consumable.consume, Consumable.keys.
    cbn [consumable map list_to_set]. set_solver. }
  assert (Hfalse : Consumable.test (consumable s') (viewItem data) [AName] = false).
  { unfold Consumable.test. cbn [forallb]. rewrite andb_true_r.
    apply bool_decide_eq_false. intros Hn. exact (Hn Hin). }
  split; [exact Hfalse|].
  unfold upcastTable. rewrite Hview, Hfalse. reflexivity.
Qed.

Lemma rowsApi_onlyConsumes : onlyConsumes Demo.rowsApi.
Proof.
  split; intros v p s; cbn [Demo.rowsApi convertItem convertChildren].
  - unfold Demo.convertRow. destruct (View.isElement "tr" v); reflexivity.
  - reflexivity.
Qed.

Lemma upcastTable_converts_once_witness :
  let s' := snd (upcastTable Demo.rowsApi (Demo.atRoot Sample.unordered)
                             Demo.initial) in
  upcastTable Demo.rowsApi (Demo.atRoot Sample.unordered) s'
  = (Demo.atRoot Sample.unordered, s').
Proof.
  apply (upcastTable_converts_once Demo.rowsApi
           (Demo.atRoot Sample.unordered) (Demo.atRoot Sample.unordered)
           Demo.initial rowsApi_onlyConsumes eq_refl eq_refl eq_refl).
Defined.

Lemma upcastTable_only_consumes (conversionApi : ConversionApi)
    (data : Data) (s : ConvState) :
  onlyConsumes conversionApi ->
  consumable s ⊆ consumable (snd (upcastTable conversionApi data s)).
Proof.
  intros Ho. unfold upcastTable.
  destruct (Consumable.test (consumable s) (viewItem data) [AName]);
    cbn [negb]; [|reflexivity].
  cbn [Writer.createElement].
  destruct (safeInsert conversionApi _ _ _) as [inserted m2].
  destruct inserted; cbn [negb snd consumable]; [|reflexivity].
  unfold upcastTableContent.
  etransitivity; [|apply (oc_convertChildren _ Ho)].
  etransitivity; [|apply (convertRows_consumes _ _ _ Ho)].
  unfold upcastTableConsumed, Consumable.consume. cbn [consumable].
  apply union_subseteq_l.
Qed.

(** X17: a table figure is converted once.  When the converters the API runs
    revert no consumption and the conversion of the inner table produced a
    node, the figure handler reports the result for that node, the name and
    the class [table] of the figure stay consumed, and the handler then
    declines the same figure without any effect. *)
Theorem upcastTableFigure_converts_once (conversionApi : ConversionApi)
    (data data2 : Data) (s s2 : ConvState) (viewTable : ViewItem)
    (conversionResult : ConversionResult) (range : Range) (modelTable : nat) :
  onlyConsumes conversionApi ->
  Consumable.test (consumable s) (viewItem data) figureAspects = true ->
  getViewTableFromFigure (viewItem data) = Some viewTable ->
  Consumable.test (consumable s) viewTable [AName] = true ->
  convertItem conversionApi viewTable (modelCursor data)
    (mkState (Consumable.consume (consumable s) (viewItem data) figureAspects)
             (model s))
  = (conversionResult, s2) ->
  cr_modelRange conversionResult = Some range ->
  first (getItems conversionApi range (model s2)) = Some modelTable ->
  viewItem data2 = viewItem data ->
  exists s',
    upcastTableFigure conversionApi data s
    = Some (updateConversionResult conversionApi modelTable data s', s')
    /\ ((path (viewItem data), AName) ∈ consumable s')
    /\ ((path (viewItem data), AClass "table") ∈ consumable s')
    /\ Consumable.test (consumable s') (viewItem data) figureAspects = false
    /\ upcastTableFigure conversionApi data2 s' = Some (data2, s').
Proof.
  intros Ho Hfig Hfind Htest Hconv Hrange Hfirst Hview.
  set (s3 := snd (convertChildren conversionApi (viewItem data)
                    (Writer.createPositionAtEnd modelTable (model s2)) s2)).
  exists s3.
  assert (Hrun : upcastTableFigure conversionApi data s
                 = Some (updateConversionResult conversionApi modelTable data s3,
                         s3)).
  { unfold upcastTableFigure. rewrite Hfig, Hfind, Htest. cbn [negb].
    rewrite Hconv, Hrange, Hfirst. subst s3.
    destruct (convertChildren conversionApi _ _ s2). reflexivity. }
  assert (Hkept : forall k, k ∈ Consumable.keys (viewItem data) figureAspects ->
                            k ∈ consumable s3).
  { intros k Hk. apply (oc_convertChildren _ Ho).
    pose proof (oc_convertItem _ Ho viewTable (modelCursor data)
                  (mkState (Consumable.consume (consumable s) (viewItem data)
                                               figureAspects) (model s))) as Hsub.
    rewrite Hconv in Hsub. cbn [snd consumable] in Hsub. apply Hsub.
    unfold Consumable.consume. apply elem_of_union_r, Hk. }
  assert (Hin : (path (viewItem data), AName) ∈ consumable s3)
    by (apply Hkept, keys_figureAspects; left; reflexivity).
  assert (Hclass : (path (viewItem data), AClass "table") ∈ consumable s3)
    by (apply Hkept, keys_figureAspects; right; reflexivity).
  assert (Hfalse : Consumable.test (consumable s3) (viewItem data) figureAspects
                   = false).
  { apply not_true_is_false. intros Ht.
    apply test_figureAspects in Ht as [Hn _]. exact (Hn Hin). }
  split; [exact Hrun|]. split; [exact Hin|]. split; [exact Hclass|].
  split; [exact Hfalse|].
  apply upcastTableFigure_consumed. rewrite Hview. exact Hfalse.
Qed.

Lemma figureApi_onlyConsumes : onlyConsumes Sample2.figureApi.
Proof.
  split; intros v p s; cbn [Sample2.figureApi convertItem convertChildren].
  - unfold Sample2.convertWith.
    pose proof (upcastTable_only_consumes Demo.rowsApi (mkData v p None) s
                  rowsApi_onlyConsumes) as H.
    destruct (upcastTable Demo.rowsApi (mkData v p None) s). exact H.
  - reflexivity.
Qed.

Lemma upcastTableFigure_converts_once_witness :
  exists s',
    upcastTableFigure Sample2.figureApi (Demo.atRoot Sample2.figureWithTable)
                      Demo.initial
    = Some (Demo.reportRange 1 (Demo.atRoot Sample2.figureWithTable) s', s')
    /\ map (Demo.recordedText (model s')) (Writer.children 1 (model s'))
       = [Some (SStr "1"); Some (SStr "2"); Some (SStr "3")]
    /\ upcastTableFigure Sample2.figureApi
         (Demo.atRoot Sample2.figureWithTable) s'
       = Some (Demo.atRoot Sample2.figureWithTable, s').
Proof.
  pose (X := convertItem Sample2.figureApi
               (Sample.child 0 Sample2.figureWithTable) (mkPos 0 0)
               (mkState (Consumable.consume ∅ Sample2.figureWithTable
                                            figureAspects)
                        Demo.rootModel)).
  destruct (upcastTableFigure_converts_once Sample2.figureApi
              (Demo.atRoot Sample2.figureWithTable)
              (Demo.atRoot Sample2.figureWithTable)
              Demo.initial (snd X) (Sample.child 0 Sample2.figureWithTable)
              (fst X) (mkRange (mkPos 0 0) (mkPos 0 1)) 1%nat
              figureApi_onlyConsumes eq_refl eq_refl eq_refl
              (surjective_pairing X) eq_refl eq_refl eq_refl)
    as (s' & Hrun & _ & _ & _ & Hagain).
  exists s'. split; [exact Hrun|]. split; [|exact Hagain].
  cbn [Sample2.figureApi updateConversionResult] in Hrun.
  assert (Hs : Some s' = option_map snd
                 (upcastTableFigure Sample2.figureApi
                    (Demo.atRoot Sample2.figureWithTable) Demo.initial))
    by (rewrite Hrun; reflexivity).
  vm_compute in Hs. injection Hs as ->. vm_compute. reflexivity.
Defined.

(** ** Two places where the code leaves the specification *)

(** C5, a defect of the code: the test for implicit heading rows runs over
    all children of the row, while the cells are its [th] and [td]
    children.  The only row of the body section of
    [<table><tbody><tr><th>a</th> <th>b</th></tr></tbody></table>] has two
    cells, both [th], and a text node between them; the scanner classifies
    it Body and counts no heading row, while its leading run of heading
    cells, taken over the cells only, is 2. *)
Theorem body_section_all_th_cells_with_text_is_body :
  In (Sample.child 0 Sample2.strayText,
      Sample.child 0 (Sample.child 0 Sample2.strayText))
     (sourceRows Sample2.strayText)
  /\ View.nameIs "tbody" (Sample.child 0 Sample2.strayText) = true
  /\ length (cells (Sample.child 0 (Sample.child 0 Sample2.strayText))) = 2%nat
  /\ forallb (View.isElement "th")
             (cells (Sample.child 0 (Sample.child 0 Sample2.strayText))) = true
  /\ classified Sample2.strayText
                (Sample.child 0 (Sample.child 0 Sample2.strayText)) Body
  /\ res_headingRows (scanTable Sample2.strayText) = 0%nat
  /\ scanRowForHeadingColumns
       (Sample.child 0 (Sample.child 0 Sample2.strayText)) = Num 2.
Proof.
  assert (Hin : In (Sample.child 0 Sample2.strayText,
                    Sample.child 0 (Sample.child 0 Sample2.strayText))
                   (sourceRows Sample2.strayText))
    by (vm_compute; tauto).
  split; [exact Hin|].
  split; [reflexivity|]. split; [reflexivity|]. split; [reflexivity|].
  split; [|split; reflexivity].
  pose proof (classified_spec _ _ _ Hin) as Hc.
  change (spec_classify (View.getChildren Sample2.strayText)
            (Sample.child 0 Sample2.strayText)
            (Sample.child 0 (Sample.child 0 Sample2.strayText)))
    with Body in Hc.
  exact Hc.
Qed.

(** C6, as the claim states it, fails: for a figure whose inner table is
    converted into a paragraph, no table node is produced, yet the handler
    takes the paragraph for the table, goes on and leaves the name and the
    class [table] of the figure consumed. *)
Lemma upcastTableFigure_keeps_consumption_without_table :
  ~ spec_figure_reverts.
Proof.
  intros Hspec.
  destruct (Hspec Sample2.paragraphApi (Demo.atRoot Demo.figure) Demo.initial
              (snd (Sample2.convertToParagraph
                      (Sample.child 0 Demo.figure) (mkPos 0 0)
                      (mkState (Consumable.consume ∅ Demo.figure figureAspects)
                               Demo.rootModel)))
              (Sample.child 0 Demo.figure)
              (fst (Sample2.convertToParagraph
                      (Sample.child 0 Demo.figure) (mkPos 0 0)
                      (mkState (Consumable.consume ∅ Demo.figure figureAspects)
                               Demo.rootModel)))
              eq_refl eq_refl eq_refl eq_refl eq_refl)
    as (data' & s' & Hrun & Htest).
  assert (Hs : option_map
                 (fun r : Data * ConvState =>
                    Consumable.test (consumable (snd r)) Demo.figure figureAspects)
                 (upcastTableFigure Sample2.paragraphApi
                    (Demo.atRoot Demo.figure) Demo.initial)
               = Some true).
  { rewrite Hrun. cbn [option_map snd]. f_equal. exact Htest. }
  vm_compute in Hs. discriminate.
Qed.
